(** * Soldexer pipes registry: a shallow embedding of the service layer

    The registry is a REST service over two relational tables, [pipes]
    and [versions], with a directory of uploaded archives on the side.
    This development embeds the repositories, the two services, the
    archive store and the download controller as state-passing functions
    over an explicit [World], and proves properties of the upsert and
    download protocols against them.

    What lives outside the repository is kept as small as the code needs:
    - the PostgreSQL tables are lists of rows in scan order, guarded by the
      constraints that [models/pipe.model.ts], [models/version.model.ts]
      and the migration declare (primary keys fed by a sequence, the two
      unique indexes on versions, the foreign key); the length limits of
      the text columns, the range of the integer columns and the driver's
      re-reading of the [jsonb] column are not modelled ([fits] and
      [int4] name the first two where a statement of the last part needs
      them), and rows with equal [createdAt] come in the order
      [merge_sort] leaves them, which PostgreSQL does not promise;
    - the file system is a finite map from paths to contents;
    - [node:path]'s [join], PostgreSQL's [ILIKE] and [process.env] are
      taken as parameters ([Platform]);
    - logger and console calls have no effect on the modelled state and
      are left out. *)

From stdpp Require Import base numbers option list strings gmap sorting.

Open Scope Z_scope.

(** ** Rows *)

Module Pipe.
Record t := mk {
  id : Z;
  name : string;
  description : option string;
  createdAt : Z;
  updatedAt : Z }.
End Pipe.

Module Version.
Record t := mk {
  id : Z;
  pipeId : Z;
  versionNumber : string;
  assetUrl : string;
  createdAt : Z;
  updatedAt : Z;
  envSchema : string }.
End Version.

#[global] Instance Pipe_eq_dec : EqDecision Pipe.t.
Proof. solve_decision. Defined.

#[global] Instance Version_eq_dec : EqDecision Version.t.
Proof. solve_decision. Defined.

(** [NewPipe] and [NewVersion] as the services build them: the id is left
    to the sequence, both timestamps are supplied. *)
Record NewPipe := {
  np_name : string;
  np_description : option string;
  np_createdAt : Z;
  np_updatedAt : Z }.

Record CreateVersionDTO := {
  cv_pipeId : Z;
  cv_versionNumber : string;
  cv_assetUrl : string;
  cv_envSchema : string }.

Record NewVersion := {
  nv_data : CreateVersionDTO;
  nv_createdAt : Z;
  nv_updatedAt : Z }.

(** ** Exceptions *)

Inductive Exn :=
| Error (message : string)
| TypeError (message : string)
| SystemError (code : string)
| UniqueViolation (constraint : string)
| ForeignKeyViolation (constraint : string)
| InvalidRowCount (clause : string).

Definition isUniqueViolation (e : Exn) : bool :=
  match e with UniqueViolation _ => true | _ => false end.

(** ** The world a request runs in *)

Record World := {
  pipes : list Pipe.t;
  versions : list Version.t;
  pipes_id_seq : Z;
  versions_id_seq : Z;
  files : gmap string (list Byte.byte);
  fs_fault : string → bool;
  clock : nat → Z;
  clock_reads : nat }.

Definition set_pipes (f : list Pipe.t → list Pipe.t) (w : World) : World :=
  {| pipes := f (pipes w); versions := versions w;
     pipes_id_seq := pipes_id_seq w; versions_id_seq := versions_id_seq w;
     files := files w; fs_fault := fs_fault w;
     clock := clock w; clock_reads := clock_reads w |}.

Definition set_versions (f : list Version.t → list Version.t) (w : World) : World :=
  {| pipes := pipes w; versions := f (versions w);
     pipes_id_seq := pipes_id_seq w; versions_id_seq := versions_id_seq w;
     files := files w; fs_fault := fs_fault w;
     clock := clock w; clock_reads := clock_reads w |}.

Definition set_pipes_id_seq (n : Z) (w : World) : World :=
  {| pipes := pipes w; versions := versions w;
     pipes_id_seq := n; versions_id_seq := versions_id_seq w;
     files := files w; fs_fault := fs_fault w;
     clock := clock w; clock_reads := clock_reads w |}.

Definition set_versions_id_seq (n : Z) (w : World) : World :=
  {| pipes := pipes w; versions := versions w;
     pipes_id_seq := pipes_id_seq w; versions_id_seq := n;
     files := files w; fs_fault := fs_fault w;
     clock := clock w; clock_reads := clock_reads w |}.

Definition set_files (f : gmap string (list Byte.byte) → gmap string (list Byte.byte))
    (w : World) : World :=
  {| pipes := pipes w; versions := versions w;
     pipes_id_seq := pipes_id_seq w; versions_id_seq := versions_id_seq w;
     files := f (files w); fs_fault := fs_fault w;
     clock := clock w; clock_reads := clock_reads w |}.

Definition set_clock_reads (n : nat) (w : World) : World :=
  {| pipes := pipes w; versions := versions w;
     pipes_id_seq := pipes_id_seq w; versions_id_seq := versions_id_seq w;
     files := files w; fs_fault := fs_fault w;
     clock := clock w; clock_reads := n |}.

(** ** Promise-returning code: state passing with exceptions

    A rejected promise keeps the effects that happened before the throw,
    so the world is returned on both sides. *)

Definition M (A : Type) : Type := World → (Exn + A) * World.

Definition ret {A} (a : A) : M A := λ w, (inr a, w).

Definition throw {A} (e : Exn) : M A := λ w, (inl e, w).

Definition bind {A B} (m : M A) (k : A → M B) : M B :=
  λ w, match m w with
       | (inr a, w') => k a w'
       | (inl e, w') => (inl e, w')
       end.

Definition try_catch {A} (m : M A) (handler : Exn → M A) : M A :=
  λ w, match m w with
       | (inl e, w') => handler e w'
       | r => r
       end.

Definition gets {A} (f : World → A) : M A := λ w, (inr (f w), w).

Definition modify (f : World → World) : M unit := λ w, (inr tt, f w).

Declare Scope m_scope.
Delimit Scope m_scope with M.
Notation "x <- m ;; k" := (bind m (λ x, k))
  (at level 100, m at next level, right associativity) : m_scope.
Open Scope m_scope.

(** [new Date()] reads the system clock; nothing is assumed about it. *)
Definition newDate : M Z :=
  λ w, (inr (clock w (clock_reads w)), set_clock_reads (S (clock_reads w)) w).

(** JavaScript truthiness of the values the code tests. *)
Definition truthy_string (s : string) : bool := negb (String.eqb s EmptyString).

Definition truthy_opt_string (o : option string) : bool :=
  match o with Some s => truthy_string s | None => false end.

Definition truthy_opt_number (o : option Z) : bool :=
  match o with Some n => negb (n =? 0) | None => false end.

(** ** What the platform provides *)

Class Platform := {
  path_join : string → string → string;
  ilike : string → string → bool;
  env_STORAGE_DIR : option string;
  env_BASE_URL : option string }.

(** [a || b] on an environment variable. *)
Definition env_or (o : option string) (dflt : string) : string :=
  match o with
  | Some s => if truthy_string s then s else dflt
  | None => dflt
  end.

(** [UpdatePipeDTO] and [UpdateVersionDTO]: every field may be left out;
    a description may also be set to null. *)
Record UpdatePipeDTO := {
  up_name : option string;
  up_description : option (option string) }.

Record UpdateVersionDTO := {
  uv_pipeId : option Z;
  uv_versionNumber : option string;
  uv_assetUrl : option string;
  uv_envSchema : option string }.

(** A statement without a RETURNING clause resolves to the driver's row
    list; what its [length] is when [n] rows were affected is the
    driver's business. *)
Class Driver := { row_list_length : nat → Z }.

(** ** The storage backend *)

(** [a] may come before [b] in a descending order on [key]. *)
Definition desc_by {A} (key : A → Z) : relation A := λ a b, key b ≤ key a.

#[global] Instance desc_by_dec {A} (key : A → Z) : RelDecision (desc_by key).
Proof. intros a b. unfold desc_by. apply _. Defined.

Module Db.

(** [ORDER BY key DESC]. *)
Definition orderByDesc {A} (key : A → Z) (rows : list A) : list A :=
  merge_sort (desc_by key) rows.

(** [.limit(lim).offset(off)]: the query builder leaves the LIMIT clause
    out when the limit is negative, so every row from the offset on comes
    back; PostgreSQL rejects a negative offset. *)
Definition limitOffset {A} (lim off : Z) (rows : list A) : M (list A) :=
  if off <? 0 then throw (InvalidRowCount "OFFSET")
  else if lim <? 0 then ret (drop (Z.to_nat off) rows)
  else ret (take (Z.to_nat lim) (drop (Z.to_nat off) rows)).

(** [INSERT INTO pipes ... RETURNING *]. The sequence value is consumed
    even when the insert is refused. *)
Definition insertPipe (d : NewPipe) : M Pipe.t :=
  λ w,
    let id := pipes_id_seq w in
    let w1 := set_pipes_id_seq (id + 1) w in
    if bool_decide (id ∈ Pipe.id <$> pipes w)
    then (inl (UniqueViolation "pipes_pkey"), w1)
    else
      let row := Pipe.mk id (np_name d) (np_description d)
                         (np_createdAt d) (np_updatedAt d) in
      (inr row, set_pipes (λ ps, ps ++ [row]) w1).

(** [INSERT INTO versions ... RETURNING *], under the primary key, the
    unique constraint on [version_number], the unique index
    [unique_pipe_version] and the foreign key to [pipes]. *)
Definition insertVersion (d : NewVersion) : M Version.t :=
  λ w,
    let id := versions_id_seq w in
    let w1 := set_versions_id_seq (id + 1) w in
    let dto := nv_data d in
    if bool_decide (id ∈ Version.id <$> versions w)
    then (inl (UniqueViolation "versions_pkey"), w1)
    else if bool_decide (cv_versionNumber dto ∈ Version.versionNumber <$> versions w)
    then (inl (UniqueViolation "versions_version_number_unique"), w1)
    else if bool_decide ((cv_pipeId dto, cv_versionNumber dto)
                           ∈ (λ v, (Version.pipeId v, Version.versionNumber v)) <$> versions w)
    then (inl (UniqueViolation "unique_pipe_version"), w1)
    else if bool_decide (cv_pipeId dto ∈ Pipe.id <$> pipes w)
    then
      let row := Version.mk id (cv_pipeId dto) (cv_versionNumber dto)
                            (cv_assetUrl dto) (nv_createdAt d) (nv_updatedAt d)
                            (cv_envSchema dto) in
      (inr row, set_versions (λ vs, vs ++ [row]) w1)
    else (inl (ForeignKeyViolation "versions_pipe_id_pipes_id_fk"), w1).

(** [UPDATE pipes SET ... WHERE id = ... RETURNING *]: an update writes a
    new row version, which a scan meets after the rows that were left
    alone. A name that does not fit its column is not modelled; what is
    proved of updates is stated by outcome. *)
Definition updatePipe (id : Z) (set : Pipe.t → Pipe.t) : M (list Pipe.t) :=
  λ w,
    let updated := set <$> filter (λ p, Pipe.id p = id) (pipes w) in
    (inr updated,
     set_pipes (λ rows, filter (λ p, Pipe.id p ≠ id) rows ++ updated) w).

(** [UPDATE versions SET ... WHERE id = ... RETURNING *], under the unique
    constraint on [version_number] (which subsumes [unique_pipe_version])
    and the foreign key; the new row versions come last in scan order. *)
Definition updateVersion (id : Z) (set : Version.t → Version.t)
    : M (list Version.t) :=
  λ w,
    let kept := filter (λ v, Version.id v ≠ id) (versions w) in
    let updated := set <$> filter (λ v, Version.id v = id) (versions w) in
    if bool_decide (updated = []) then (inr [], w)
    else if bool_decide (NoDup (Version.versionNumber <$> updated)
                         ∧ Forall (λ u, Version.versionNumber u
                                        ∉ Version.versionNumber <$> kept) updated)
    then
      if bool_decide (Forall (λ u, Version.pipeId u ∈ Pipe.id <$> pipes w) updated)
      then (inr updated, set_versions (λ _, kept ++ updated) w)
      else (inl (ForeignKeyViolation "versions_pipe_id_pipes_id_fk"), w)
    else (inl (UniqueViolation "versions_version_number_unique"), w).

(** [DELETE FROM pipes WHERE id = ...]: the versions of a deleted pipe go
    with it ([ON DELETE cascade]). The number of deleted rows is returned. *)
Definition deletePipe (id : Z) : M nat :=
  λ w,
    let deleted := filter (λ p, Pipe.id p = id) (pipes w) in
    if bool_decide (deleted = []) then (inr 0%nat, w)
    else (inr (length deleted),
          set_versions (filter (λ v, Version.pipeId v ≠ id))
            (set_pipes (filter (λ p, Pipe.id p ≠ id)) w)).

(** [DELETE FROM versions WHERE id = ...]. *)
Definition deleteVersion (id : Z) : M nat :=
  λ w,
    (inr (length (filter (λ v, Version.id v = id) (versions w))),
     set_versions (filter (λ v, Version.id v ≠ id)) w).

End Db.

(** ** Repositories *)

Record PipeQueryOptions := {
  pq_page : option Z;
  pq_limit : option Z;
  pq_search : option string;
  pq_includeVersions : option bool }.

Record VersionQueryOptions := {
  vq_page : option Z;
  vq_limit : option Z;
  vq_pipeId : option Z }.

Module VersionRepository.

Definition create (versionData : NewVersion) : M Version.t :=
  Db.insertVersion versionData.

Definition findById (id : Z) : M (option Version.t) :=
  gets (λ w, head (filter (λ v, Version.id v = id) (versions w))).

Definition findByPipeId (pipeId : Z) : M (list Version.t) :=
  gets (λ w, Db.orderByDesc Version.createdAt
               (filter (λ v, Version.pipeId v = pipeId) (versions w))).

(** The optional [WHERE pipe_id = ...] shared by [findMany] and [count]. *)
Definition wherePipeId (pipeId : option Z) (rows : list Version.t) : list Version.t :=
  match pipeId with
  | Some p => filter (λ v, Version.pipeId v = p) rows
  | None => rows
  end.

Definition findMany (options : VersionQueryOptions) : M (list Version.t) :=
  let page := default 1 (vq_page options) in
  let limit := default 10 (vq_limit options) in
  rows <- gets (λ w, wherePipeId (vq_pipeId options) (versions w)) ;;
  Db.limitOffset limit ((page - 1) * limit) (Db.orderByDesc Version.createdAt rows).

Definition findByPipeIdAndVersionNumber (pipeId : Z) (versionNumber : string)
    : M (option Version.t) :=
  gets (λ w, head (filter (λ v, Version.pipeId v = pipeId
                                ∧ Version.versionNumber v = versionNumber)
                          (versions w))).

(** [select({ count: versions.id })] selects the id column under the
    name [count]; the first row of the result is destructured and its
    [count] field returned. Reading the field of [undefined] throws. *)
Definition count (options : VersionQueryOptions) : M Z :=
  rows <- gets (λ w, wherePipeId (vq_pipeId options) (versions w)) ;;
  match Version.id <$> rows with
  | result :: _ => ret result
  | [] => throw (TypeError "Cannot read properties of undefined (reading 'count')")
  end.

Definition findLatestByPipeId (pipeId : Z) : M (option Version.t) :=
  rows <- gets (λ w, filter (λ v, Version.pipeId v = pipeId) (versions w)) ;;
  limited <- Db.limitOffset 1 0 (Db.orderByDesc Version.createdAt rows) ;;
  ret (head limited).

(** The [set] clause of [update]: the fields present in [updateData],
    then [updatedAt]. *)
Definition applyUpdate (updateData : UpdateVersionDTO) (updatedAt : Z)
    (v : Version.t) : Version.t :=
  Version.mk (Version.id v)
             (default (Version.pipeId v) (uv_pipeId updateData))
             (default (Version.versionNumber v) (uv_versionNumber updateData))
             (default (Version.assetUrl v) (uv_assetUrl updateData))
             (Version.createdAt v)
             updatedAt
             (default (Version.envSchema v) (uv_envSchema updateData)).

Definition update (id : Z) (updateData : UpdateVersionDTO) : M (option Version.t) :=
  updatedAt <- newDate ;;
  rows <- Db.updateVersion id (applyUpdate updateData updatedAt) ;;
  ret (head rows).

Definition delete `{Driver} (id : Z) : M bool :=
  affected <- Db.deleteVersion id ;;
  ret (0 <? row_list_length affected).

End VersionRepository.

(** A row of [pipes LEFT JOIN versions]: the version columns are null
    when the pipe has no version. *)
Record JoinedRow := {
  jr_id : Z;
  jr_name : string;
  jr_description : option string;
  jr_createdAt : Z;
  jr_updatedAt : Z;
  jr_versionId : option Z;
  jr_versionPipeId : option Z;
  jr_versionNumber : option string;
  jr_assetUrl : option string;
  jr_versionCreatedAt : option Z;
  jr_versionUpdatedAt : option Z;
  jr_envSchema : option string }.

Record PipeWithVersions := {
  pwv_id : Z;
  pwv_name : string;
  pwv_description : option string;
  pwv_createdAt : Z;
  pwv_updatedAt : Z;
  pwv_versions : list Version.t }.

Definition joinRow (p : Pipe.t) (ov : option Version.t) : JoinedRow :=
  {| jr_id := Pipe.id p; jr_name := Pipe.name p;
     jr_description := Pipe.description p;
     jr_createdAt := Pipe.createdAt p; jr_updatedAt := Pipe.updatedAt p;
     jr_versionId := Version.id <$> ov;
     jr_versionPipeId := Version.pipeId <$> ov;
     jr_versionNumber := Version.versionNumber <$> ov;
     jr_assetUrl := Version.assetUrl <$> ov;
     jr_versionCreatedAt := Version.createdAt <$> ov;
     jr_versionUpdatedAt := Version.updatedAt <$> ov;
     jr_envSchema := Version.envSchema <$> ov |}.

(** [pipes LEFT JOIN versions ON pipes.id = versions.pipe_id]. *)
Definition leftJoin (ps : list Pipe.t) (vs : list Version.t) : list JoinedRow :=
  ps ≫= λ p,
    match filter (λ v, Version.pipeId v = Pipe.id p) vs with
    | [] => [joinRow p None]
    | matching => joinRow p ∘ Some <$> matching
    end.

(** [ORDER BY pipes.created_at DESC, versions.created_at DESC]; a
    descending order puts nulls first. *)
Definition joined_desc : relation JoinedRow := λ a b,
  jr_createdAt b < jr_createdAt a ∨
  (jr_createdAt b = jr_createdAt a ∧
   match jr_versionCreatedAt a, jr_versionCreatedAt b with
   | None, _ => True
   | Some _, None => False
   | Some ta, Some tb => tb ≤ ta
   end).

#[global] Instance joined_desc_dec : RelDecision joined_desc.
Proof.
  intros a b. unfold joined_desc.
  destruct (jr_versionCreatedAt a), (jr_versionCreatedAt b); apply _.
Defined.

(** A JavaScript [Map] keyed by numbers: entries keep insertion order and
    [set] on a present key replaces the value in place. *)
Module JsMap.
Section Ops.
Context {V : Type}.

Definition t := list (Z * V).

Definition has (k : Z) (m : t) : bool := bool_decide (k ∈ fst <$> m).

Definition get (k : Z) (m : t) : option V :=
  snd <$> head (filter (λ e, fst e = k) m).

Definition set (k : Z) (v : V) (m : t) : t :=
  if has k m then (λ e, if bool_decide (fst e = k) then (k, v) else e) <$> m
  else m ++ [(k, v)].

Definition values (m : t) : list V := snd <$> m.

End Ops.
Arguments t : clear implicits.
End JsMap.

(** [Array.prototype.slice(start, end)]. *)
Definition js_slice {A} (l : list A) (start stop : Z) : list A :=
  let len := Z.of_nat (length l) in
  let k := if start <? 0 then Z.max (len + start) 0 else Z.min start len in
  let final := if stop <? 0 then Z.max (len + stop) 0 else Z.min stop len in
  take (Z.to_nat (final - k)) (drop (Z.to_nat k) l).

Module PipeRepository.
Section WithPlatform.
Context `{Platform}.

Definition create (pipeData : NewPipe) : M Pipe.t := Db.insertPipe pipeData.

Definition findById (id : Z) : M (option Pipe.t) :=
  gets (λ w, head (filter (λ p, Pipe.id p = id) (pipes w))).

Definition findByName (name : string) : M (option Pipe.t) :=
  gets (λ w, head (filter (λ p, Pipe.name p = name) (pipes w))).

(** [or(ilike(name, pattern), ilike(description, pattern))] in a WHERE
    clause: a null description matches nothing. *)
Definition matchesSearch (search name : string) (description : option string) : bool :=
  let pattern := "%" +:+ search +:+ "%" in
  ilike name pattern || from_option (λ d, ilike d pattern) false description.

(** The optional WHERE clause shared by [findMany], [findManyWithVersions]
    and [count]. *)
Definition searched (search : option string) : bool := truthy_opt_string search.

Definition whereSearch (search : option string) (rows : list Pipe.t) : list Pipe.t :=
  if searched search
  then filter (λ p, matchesSearch (default EmptyString search) (Pipe.name p) (Pipe.description p)) rows
  else rows.

Definition whereSearchJoined (search : option string) (rows : list JoinedRow)
    : list JoinedRow :=
  if searched search
  then filter (λ r, matchesSearch (default EmptyString search) (jr_name r) (jr_description r)) rows
  else rows.

(** One turn of the grouping loop over the joined rows. *)
Definition groupRow (pipeMap : JsMap.t PipeWithVersions) (row : JoinedRow)
    : JsMap.t PipeWithVersions :=
  let pipeId := jr_id row in
  let pipeMap :=
    if negb (JsMap.has pipeId pipeMap)
    then JsMap.set pipeId
           {| pwv_id := jr_id row; pwv_name := jr_name row;
              pwv_description := jr_description row;
              pwv_createdAt := jr_createdAt row;
              pwv_updatedAt := jr_updatedAt row;
              pwv_versions := [] |} pipeMap
    else pipeMap in
  match JsMap.get pipeId pipeMap with
  | Some pipe =>
      if truthy_opt_number (jr_versionId row)
      then JsMap.set pipeId
             {| pwv_id := pwv_id pipe; pwv_name := pwv_name pipe;
                pwv_description := pwv_description pipe;
                pwv_createdAt := pwv_createdAt pipe;
                pwv_updatedAt := pwv_updatedAt pipe;
                pwv_versions := pwv_versions pipe ++
                  [Version.mk (default 0 (jr_versionId row))
                              (default 0 (jr_versionPipeId row))
                              (default EmptyString (jr_versionNumber row))
                              (default EmptyString (jr_assetUrl row))
                              (default 0 (jr_versionCreatedAt row))
                              (default 0 (jr_versionUpdatedAt row))
                              (default EmptyString (jr_envSchema row))] |} pipeMap
      else pipeMap
  | None => pipeMap
  end.

Definition findManyWithVersions (options : PipeQueryOptions) : M (list PipeWithVersions) :=
  let page := default 1 (pq_page options) in
  let limit := default 10 (pq_limit options) in
  rows <- gets (λ w, whereSearchJoined (pq_search options)
                       (leftJoin (pipes w) (versions w))) ;;
  result <- Db.limitOffset (limit * 10) ((page - 1) * limit * 10)
              (merge_sort joined_desc rows) ;;
  let pipeMap := foldl groupRow [] result in
  let pipesWithVersions := JsMap.values pipeMap in
  let startIndex := (page - 1) * limit in
  let endIndex := startIndex + limit in
  ret (js_slice pipesWithVersions startIndex endIndex).

(** [findMany] returns [Pipe[] | PipeWithVersions[]]. *)
Definition findMany (options : PipeQueryOptions)
    : M (list Pipe.t + list PipeWithVersions) :=
  let page := default 1 (pq_page options) in
  let limit := default 10 (pq_limit options) in
  if default false (pq_includeVersions options)
  then (r <- findManyWithVersions options ;; ret (inr r))
  else
    rows <- gets (λ w, whereSearch (pq_search options) (pipes w)) ;;
    result <- Db.limitOffset limit ((page - 1) * limit)
                (Db.orderByDesc Pipe.createdAt rows) ;;
    ret (inl result).

(** [select({ count: pipes.id })] selects the id column under the name
    [count]; the first row of the result is destructured and its [count]
    field returned. Reading the field of [undefined] throws. *)
Definition count (options : PipeQueryOptions) : M Z :=
  rows <- gets (λ w, whereSearch (pq_search options) (pipes w)) ;;
  match Pipe.id <$> rows with
  | result :: _ => ret result
  | [] => throw (TypeError "Cannot read properties of undefined (reading 'count')")
  end.

End WithPlatform.

(** The [set] clause of [update]: the fields present in [updateData],
    then [updatedAt]. *)
Definition applyUpdate (updateData : UpdatePipeDTO) (updatedAt : Z)
    (p : Pipe.t) : Pipe.t :=
  Pipe.mk (Pipe.id p)
          (default (Pipe.name p) (up_name updateData))
          (default (Pipe.description p) (up_description updateData))
          (Pipe.createdAt p)
          updatedAt.

Definition update (id : Z) (updateData : UpdatePipeDTO) : M (option Pipe.t) :=
  updatedAt <- newDate ;;
  rows <- Db.updatePipe id (applyUpdate updateData updatedAt) ;;
  ret (head rows).

Definition delete `{Driver} (id : Z) : M bool :=
  affected <- Db.deletePipe id ;;
  ret (0 <? row_list_length affected).

End PipeRepository.

(** ** Archive store *)

(** The readable side of an upload: it delivers its bytes, or is
    destroyed after delivering a prefix of them. *)
Inductive Readable :=
| Delivers (data : list Byte.byte)
| Destroyed (sent : list Byte.byte).

Record MultipartFile := { mf_file : Readable }.

Record StoredFile := {
  sf_fileName : string;
  sf_filePath : string;
  sf_url : string;
  sf_size : Z }.

Module Fs.

(** [pipeline(source, createWriteStream(path))]. *)
Definition pipeline (source : Readable) (path : string) : M unit :=
  faulty <- gets (λ w, fs_fault w path) ;;
  if (faulty : bool) then throw (SystemError "EACCES")
  else match source with
       | Delivers data => modify (set_files (insert path data))
       | Destroyed sent =>
           _ <- modify (set_files (insert path sent)) ;;
           throw (SystemError "ERR_STREAM_PREMATURE_CLOSE")
       end.

(** [fs.stat(path).size]. *)
Definition stat_size (path : string) : M Z :=
  found <- gets (λ w, files w !! path) ;;
  match found with
  | Some data => ret (Z.of_nat (length data))
  | None => throw (SystemError "ENOENT")
  end.

(** [fs.access(path)]. *)
Definition access (path : string) : M unit :=
  found <- gets (λ w, files w !! path) ;;
  match found with
  | Some _ => ret tt
  | None => throw (SystemError "ENOENT")
  end.

(** [fs.unlink(path)]. *)
Definition unlink (path : string) : M unit :=
  faulty <- gets (λ w, fs_fault w path) ;;
  found <- gets (λ w, files w !! path) ;;
  match found with
  | None => throw (SystemError "ENOENT")
  | Some _ =>
      if (faulty : bool) then throw (SystemError "EACCES")
      else modify (set_files (delete path))
  end.

End Fs.

Module FileStorageService.
Section WithPlatform.
Context `{Platform}.

Definition storageDir : string := env_or env_STORAGE_DIR "./uploads".

Definition baseUrl : string := env_or env_BASE_URL "http://localhost:3000".

Definition storeFile (file : MultipartFile) (pipeName version : string) : M StoredFile :=
  try_catch
    (let fileName := pipeName +:+ "-" +:+ version +:+ ".tar" in
     let filePath := path_join storageDir fileName in
     _ <- Fs.pipeline (mf_file file) filePath ;;
     size <- Fs.stat_size filePath ;;
     let url := baseUrl +:+ "/files/" +:+ fileName in
     ret {| sf_fileName := fileName; sf_filePath := filePath;
            sf_url := url; sf_size := size |})
    (λ _, throw (Error "Failed to store file")).

Definition fileExists (fileName : string) : M bool :=
  try_catch
    (let filePath := path_join storageDir fileName in
     _ <- Fs.access filePath ;;
     ret true)
    (λ _, ret false).

Definition getFilePath (fileName : string) : string :=
  path_join storageDir fileName.

Definition deleteFile (fileName : string) : M bool :=
  try_catch
    (let filePath := path_join storageDir fileName in
     _ <- Fs.unlink filePath ;;
     ret true)
    (λ _, ret false).

End WithPlatform.
End FileStorageService.

(** [Math.ceil(a / b)] on integers; dividing by zero gives an infinity
    or NaN rather than an exception. *)
Inductive JsNumber := Num (z : Z) | Infinity | NegInfinity | NaN.

Definition ceil_div (a b : Z) : JsNumber :=
  if b =? 0
  then (if a =? 0 then NaN else if 0 <? a then Infinity else NegInfinity)
  else Num (- ((- a) `div` b)).

Record VersionsPage := {
  vp_versions : list Version.t;
  vp_totalCount : Z;
  vp_page : Z;
  vp_limit : Z;
  vp_totalPages : JsNumber }.

(** ** Version service *)

Module VersionService.

Definition createVersion (versionData : CreateVersionDTO) : M Version.t :=
  pipe <- PipeRepository.findById (cv_pipeId versionData) ;;
  match pipe with
  | None => throw (Error "Pipe not found")
  | Some _ =>
      createdAt <- newDate ;;
      updatedAt <- newDate ;;
      VersionRepository.create
        {| nv_data := versionData;
           nv_createdAt := createdAt; nv_updatedAt := updatedAt |}
  end.

Definition getVersionById (id : Z) : M (option Version.t) :=
  VersionRepository.findById id.

Definition getVersionsByPipeId (pipeId : Z) : M (list Version.t) :=
  pipe <- PipeRepository.findById pipeId ;;
  match pipe with
  | None => throw (Error "Pipe not found")
  | Some _ => VersionRepository.findByPipeId pipeId
  end.

Definition getVersionByPipeIdAndVersionNumber (pipeId : Z) (versionNumber : string)
    : M (option Version.t) :=
  VersionRepository.findByPipeIdAndVersionNumber pipeId versionNumber.

(** [Promise.all] over two reads is run in sequence: neither changes the
    world. *)
Definition getVersions (options : VersionQueryOptions) : M VersionsPage :=
  let page := default 1 (vq_page options) in
  let limit := default 10 (vq_limit options) in
  versions <- VersionRepository.findMany options ;;
  totalCount <- VersionRepository.count options ;;
  let totalPages := ceil_div totalCount limit in
  ret {| vp_versions := versions; vp_totalCount := totalCount;
         vp_page := page; vp_limit := limit; vp_totalPages := totalPages |}.

Definition getLatestVersionByPipeId (pipeId : Z) : M (option Version.t) :=
  pipe <- PipeRepository.findById pipeId ;;
  match pipe with
  | None => throw (Error "Pipe not found")
  | Some _ => VersionRepository.findLatestByPipeId pipeId
  end.

Definition updateVersion (id : Z) (updateData : UpdateVersionDTO)
    : M (option Version.t) :=
  updatedVersion <- VersionRepository.update id updateData ;;
  match updatedVersion with
  | None => ret None
  | Some updatedVersion => ret (Some updatedVersion)
  end.

Definition deleteVersion `{Driver} (id : Z) : M bool :=
  VersionRepository.delete id.

End VersionService.

(** ** Pipe service *)

Record CreatePipeWithFileDTO := {
  cpf_name : string;
  cpf_version : string;
  cpf_description : option string;
  cpf_file : MultipartFile;
  cpf_envSchema : string }.

Record CreatePipeDTO := {
  cp_name : string;
  cp_description : option string;
  cp_version : string;
  cp_envSchema : string }.

Record PipesPage := {
  pp_pipes : list Pipe.t + list PipeWithVersions;
  pp_totalCount : Z;
  pp_page : Z;
  pp_limit : Z;
  pp_totalPages : JsNumber }.

Record Download := {
  dl_pipe : Pipe.t;
  dl_version : Version.t;
  dl_filePath : string }.

Module PipeService.
Section WithPlatform.
Context `{Platform}.

Definition getPipeByName (name : string) : M (option Pipe.t) :=
  PipeRepository.findByName name.

Definition createPipeWithFile (pipeData : CreatePipeWithFileDTO)
    : M (Pipe.t * Version.t) :=
  storedFile <- FileStorageService.storeFile (cpf_file pipeData)
                  (cpf_name pipeData) (cpf_version pipeData) ;;
  found <- getPipeByName (cpf_name pipeData) ;;
  match found with
  | None =>
      createdAt <- newDate ;;
      updatedAt <- newDate ;;
      pipe <- PipeRepository.create
                {| np_name := cpf_name pipeData;
                   np_description := cpf_description pipeData;
                   np_createdAt := createdAt; np_updatedAt := updatedAt |} ;;
      version <- VersionService.createVersion
                   {| cv_pipeId := Pipe.id pipe;
                      cv_versionNumber := cpf_version pipeData;
                      cv_assetUrl := sf_url storedFile;
                      cv_envSchema := cpf_envSchema pipeData |} ;;
      ret (pipe, version)
  | Some pipe =>
      version <- VersionService.createVersion
                   {| cv_pipeId := Pipe.id pipe;
                      cv_versionNumber := cpf_version pipeData;
                      cv_assetUrl := sf_url storedFile;
                      cv_envSchema := cpf_envSchema pipeData |} ;;
      ret (pipe, version)
  end.

Definition createPipe (pipeData : CreatePipeDTO) : M (Pipe.t * Version.t) :=
  found <- getPipeByName (cp_name pipeData) ;;
  match found with
  | None =>
      createdAt <- newDate ;;
      updatedAt <- newDate ;;
      pipe <- PipeRepository.create
                {| np_name := cp_name pipeData;
                   np_description := cp_description pipeData;
                   np_createdAt := createdAt; np_updatedAt := updatedAt |} ;;
      version <- VersionService.createVersion
                   {| cv_pipeId := Pipe.id pipe;
                      cv_versionNumber := cp_version pipeData;
                      cv_assetUrl := EmptyString;
                      cv_envSchema := cp_envSchema pipeData |} ;;
      ret (pipe, version)
  | Some pipe =>
      version <- VersionService.createVersion
                   {| cv_pipeId := Pipe.id pipe;
                      cv_versionNumber := cp_version pipeData;
                      cv_assetUrl := EmptyString;
                      cv_envSchema := cp_envSchema pipeData |} ;;
      ret (pipe, version)
  end.

Definition getPipes (options : PipeQueryOptions) : M PipesPage :=
  let page := default 1 (pq_page options) in
  let limit := default 10 (pq_limit options) in
  pipes <- PipeRepository.findMany options ;;
  totalCount <- PipeRepository.count options ;;
  let totalPages := ceil_div totalCount limit in
  ret {| pp_pipes := pipes; pp_totalCount := totalCount;
         pp_page := page; pp_limit := limit; pp_totalPages := totalPages |}.

(** The version a download resolves to: the one with the requested
    number, or the latest one when no (or an empty) number is given. *)
Definition selectVersion (pipe : Pipe.t) (version : option string)
    : M (option Version.t) :=
  if truthy_opt_string version
  then
    versions <- VersionService.getVersionsByPipeId (Pipe.id pipe) ;;
    ret (head (filter (λ v, Some (Version.versionNumber v) = version) versions))
  else VersionService.getLatestVersionByPipeId (Pipe.id pipe).

Definition getPipeForDownload (name : string) (version : option string)
    : M (option Download) :=
  found <- getPipeByName name ;;
  match found with
  | None => ret None
  | Some pipe =>
      pipeVersion <- selectVersion pipe version ;;
      match pipeVersion with
      | None => ret None
      | Some pipeVersion =>
          if negb (truthy_string (Version.assetUrl pipeVersion)) then ret None
          else
            let fileName := Pipe.name pipe +:+ "-"
                            +:+ Version.versionNumber pipeVersion +:+ ".tar" in
            let filePath := FileStorageService.getFilePath fileName in
            fileExists <- FileStorageService.fileExists fileName ;;
            if (fileExists : bool)
            then ret (Some {| dl_pipe := pipe; dl_version := pipeVersion;
                              dl_filePath := filePath |})
            else ret None
      end
  end.

End WithPlatform.

Definition getPipeById (id : Z) : M (option Pipe.t) :=
  PipeRepository.findById id.

Definition updatePipe (id : Z) (updateData : UpdatePipeDTO) : M (option Pipe.t) :=
  updatedPipe <- PipeRepository.update id updateData ;;
  match updatedPipe with
  | None => ret None
  | Some updatedPipe => ret (Some updatedPipe)
  end.

Definition deletePipe `{Driver} (id : Z) : M bool :=
  PipeRepository.delete id.

End PipeService.

(** ** Download controller *)

Inductive Payload :=
| JsonError (error : string)
| SendFile (fileName root : string).

Record Reply := {
  rp_status : Z;
  rp_headers : list (string * string);
  rp_payload : Payload }.

Record DownloadParams := {
  dp_name : string;
  dp_version : option string }.

(** JSON replies: [{ error }] or [{ success: true, data, message? }]. *)
Inductive JsonBody (D : Type) :=
| ErrorJson (error : string)
| SuccessJson (data : D) (message : option string).
Arguments ErrorJson {D} error.
Arguments SuccessJson {D} data message.

Record JsonReply (D : Type) := {
  js_status : Z;
  js_body : JsonBody D }.
Arguments js_status {D} _.
Arguments js_body {D} _.

(** What [request.file()] yields for [POST /pipes]: the form fields that
    were sent, the part's mimetype and the part itself. *)
Record UploadRequest := {
  ur_name : option string;
  ur_version : option string;
  ur_description : option string;
  ur_envSchema : option string;
  ur_mimetype : string;
  ur_part : MultipartFile }.

Module PipeController.
Section WithPlatform.
Context `{Platform}.

Definition downloadPipe (params : DownloadParams) : M Reply :=
  try_catch
    (let name := dp_name params in
     let version := dp_version params in
     if negb (truthy_string name)
     then ret {| rp_status := 400; rp_headers := [];
                 rp_payload := JsonError "Pipe name is required" |}
     else
       pipeData <- PipeService.getPipeForDownload name version ;;
       match pipeData with
       | None =>
           ret {| rp_status := 404; rp_headers := [];
                  rp_payload := JsonError
                    (if truthy_opt_string version
                     then "Pipe '" +:+ name +:+ "' version '"
                          +:+ default EmptyString version
                          +:+ "' not found or no asset available"
                     else "Pipe '" +:+ name
                          +:+ "' not found or no asset available") |}
       | Some pipeData =>
           let fileName := Pipe.name (dl_pipe pipeData) +:+ "-"
                           +:+ Version.versionNumber (dl_version pipeData)
                           +:+ ".tar" in
           ret {| rp_status := 200;
                  rp_headers :=
                    [("Content-Type", "application/x-tar");
                     ("Content-Disposition",
                      "attachment; filename=" +:+ String (Ascii.ascii_of_nat 34) EmptyString
                      +:+ fileName +:+ String (Ascii.ascii_of_nat 34) EmptyString)];
                  rp_payload := SendFile fileName
                                  (env_or env_STORAGE_DIR "./uploads") |}
       end)
    (λ _, ret {| rp_status := 500; rp_headers := [];
                 rp_payload := JsonError "Internal server error" |}).

Definition createPipe (request : option UploadRequest)
    : M (JsonReply (Pipe.t * Version.t)) :=
  try_catch
    (match request with
     | None => ret {| js_status := 400; js_body := ErrorJson "No file uploaded" |}
     | Some data =>
         if negb (truthy_opt_string (ur_name data))
         then ret {| js_status := 400;
                     js_body := ErrorJson "Missing required field: name" |}
         else if negb (truthy_opt_string (ur_version data))
         then ret {| js_status := 400;
                     js_body := ErrorJson "Missing required field: version" |}
         else if negb (truthy_opt_string (ur_envSchema data))
         then ret {| js_status := 400;
                     js_body := ErrorJson "Missing required field: envSchema" |}
         else if negb (String.eqb (ur_mimetype data) "application/x-tar")
         then ret {| js_status := 400;
                     js_body := ErrorJson
                                  "Invalid file type. Only TAR files are allowed." |}
         else
           result <- PipeService.createPipeWithFile
                       {| cpf_name := default EmptyString (ur_name data);
                          cpf_version := default EmptyString (ur_version data);
                          cpf_description := ur_description data;
                          cpf_file := ur_part data;
                          cpf_envSchema := default EmptyString (ur_envSchema data) |} ;;
           ret {| js_status := 201;
                  js_body := SuccessJson result (Some "Pipe created successfully") |}
     end)
    (λ _, ret {| js_status := 500; js_body := ErrorJson "Internal server error" |}).

End WithPlatform.
End PipeController.

(** ** Version controller *)

Module VersionController.

Definition createVersion (versionData : CreateVersionDTO) : M (JsonReply Version.t) :=
  try_catch
    (if (cv_pipeId versionData =? 0)
        || negb (truthy_string (cv_versionNumber versionData))
        || negb (truthy_string (cv_assetUrl versionData))
     then ret {| js_status := 400;
                 js_body := ErrorJson
                   "Missing required fields: pipeId, versionNumber, assetUrl" |}
     else
       version <- VersionService.createVersion versionData ;;
       ret {| js_status := 201;
              js_body := SuccessJson version (Some "Version created successfully") |})
    (λ error,
       match error with
       | Error message | TypeError message =>
           if String.eqb message "Pipe not found"
           then ret {| js_status := 404; js_body := ErrorJson message |}
           else ret {| js_status := 500; js_body := ErrorJson "Internal server error" |}
       | _ => ret {| js_status := 500; js_body := ErrorJson "Internal server error" |}
       end).


End VersionController.

(** ** Vocabulary of the statements *)

(** The promise was fulfilled rather than rejected. *)
Definition fulfilled {A} (r : Exn + A) : Prop :=
  match r with inr _ => True | inl _ => False end.

(** What a step leaves alone in the database. *)
Definition same_tables (w w' : World) : Prop :=
  pipes w' = pipes w ∧ versions w' = versions w.

Definition same_db (w w' : World) : Prop :=
  same_tables w w' ∧
  pipes_id_seq w' = pipes_id_seq w ∧ versions_id_seq w' = versions_id_seq w.

(** The range of an [integer] column. *)
Definition int4 (z : Z) : Prop := -2147483648 ≤ z ≤ 2147483647.

(** A text that fits a [varchar(n)] column in any encoding: [n] bytes are
    at most [n] characters. *)
Definition fits (n : nat) (s : string) : Prop := (String.length s ≤ n)%nat.

(** Paging parameters the listing queries take as they are: a page from
    1 on, a non-negative limit, and an end offset (ten times over, for
    the joined query) among the integers on which JavaScript's arithmetic
    is exact. *)
Definition paging_ok (page limit : Z) : Prop :=
  1 ≤ page ∧ 0 ≤ limit ∧ page * limit * 10 ≤ 9007199254740991.

(** The version row a successful call adds. *)
Definition added_version (d : CreatePipeWithFileDTO) (sf : StoredFile)
    (pipe : Pipe.t) (v : Version.t) (w w' : World) : Prop :=
  versions w' = versions w ++ [v] ∧
  Version.pipeId v = Pipe.id pipe ∧
  Version.versionNumber v = cpf_version d ∧
  Version.assetUrl v = sf_url sf ∧
  Version.envSchema v = cpf_envSchema d.

(** The steps [createPipeWithFile] and [createPipe] share once the asset
    URL is known: find the pipe by name or create it, then create the
    version under its id. *)
Definition upsert (name : string) (description : option string)
    (version assetUrl envSchema : string) : M (Pipe.t * Version.t) :=
  found <- PipeService.getPipeByName name ;;
  match found with
  | None =>
      createdAt <- newDate ;;
      updatedAt <- newDate ;;
      pipe <- PipeRepository.create
                {| np_name := name; np_description := description;
                   np_createdAt := createdAt; np_updatedAt := updatedAt |} ;;
      version <- VersionService.createVersion
                   {| cv_pipeId := Pipe.id pipe; cv_versionNumber := version;
                      cv_assetUrl := assetUrl; cv_envSchema := envSchema |} ;;
      ret (pipe, version)
  | Some pipe =>
      version <- VersionService.createVersion
                   {| cv_pipeId := Pipe.id pipe; cv_versionNumber := version;
                      cv_assetUrl := assetUrl; cv_envSchema := envSchema |} ;;
      ret (pipe, version)
  end.

(** The archive name of a pipe's version. *)
Definition archiveName (name version : string) : string :=
  name +:+ "-" +:+ version +:+ ".tar".

(** The rows of one page of the plain pipe listing. *)
Definition listed_page `{Platform} (search : option string) (limit page : Z)
    (w : World) : list Pipe.t :=
  match fst (PipeRepository.findMany
               {| pq_page := Some page; pq_limit := Some limit;
                  pq_search := search; pq_includeVersions := None |} w) with
  | inr (inl rows) => rows
  | _ => []
  end.

(** The three causes the specification names for a failed download, read
    off the steps of the resolution protocol. *)
Inductive DownloadFailure := PipeNotFound | VersionNotFound | NoAssetAvailable.

Definition download_failure `{Platform} (name : string) (version : option string)
    (w : World) : option DownloadFailure :=
  match fst (PipeService.getPipeByName name w) with
  | inr (Some pipe) =>
      match fst (PipeService.selectVersion pipe version w) with
      | inr (Some v) =>
          if truthy_string (Version.assetUrl v)
          then match fst (FileStorageService.fileExists
                            (Pipe.name pipe +:+ "-" +:+ Version.versionNumber v
                             +:+ ".tar") w) with
               | inr true => None
               | _ => Some NoAssetAvailable
               end
          else Some NoAssetAvailable
      | _ => Some VersionNotFound
      end
  | _ => Some PipeNotFound
  end.

(** The body of the 404 reply of the download endpoints. *)
Definition not_found_message (name : string) (version : option string) : string :=
  match version with
  | Some v =>
      if truthy_string v
      then "Pipe '" +:+ name +:+ "' version '" +:+ v
           +:+ "' not found or no asset available"
      else "Pipe '" +:+ name +:+ "' not found or no asset available"
  | None => "Pipe '" +:+ name +:+ "' not found or no asset available"
  end.

(** The ids of a list in order of first appearance. *)
Definition first_occurrences (ids : list Z) : list Z :=
  reverse (remove_dups (reverse ids)).

(** ** A sample installation

    A [join] that concatenates without normalising, an ASCII [ILIKE]
    without escapes, and no environment variables set. The examples run
    on it; the theorems hold for every [Platform]. *)

Definition ascii_lower (c : Ascii.ascii) : Ascii.ascii :=
  let n := Ascii.nat_of_ascii c in
  if ((65 <=? n) && (n <=? 90))%nat then Ascii.ascii_of_nat (n + 32) else c.

Fixpoint like (pattern s : list Ascii.ascii) : bool :=
  match pattern with
  | [] => match s with [] => true | _ => false end
  | c :: pattern' =>
      if Ascii.eqb c (Ascii.ascii_of_nat 37)
      then (fix any (s : list Ascii.ascii) : bool :=
              like pattern' s || match s with [] => false | _ :: s' => any s' end) s
      else match s with
           | [] => false
           | d :: s' =>
               (Ascii.eqb c (Ascii.ascii_of_nat 95)
                || Ascii.eqb (ascii_lower c) (ascii_lower d))
               && like pattern' s'
           end
  end.

Definition sample_platform : Platform := {|
  path_join := λ dir file, dir +:+ "/" +:+ file;
  ilike := λ s pattern, like (String.list_ascii_of_string pattern)
                             (String.list_ascii_of_string s);
  env_STORAGE_DIR := None;
  env_BASE_URL := None |}.

Definition fresh_world : World := {|
  pipes := []; versions := [];
  pipes_id_seq := 1; versions_id_seq := 1;
  files := ∅; fs_fault := λ _, false;
  clock := λ n, 1000 + Z.of_nat n; clock_reads := 0 |}.

Definition acme_upload : CreatePipeWithFileDTO := {|
  cpf_name := "acme"; cpf_version := "1.0.0"; cpf_description := Some "A";
  cpf_file := {| mf_file := Delivers [Byte.x01; Byte.x02; Byte.x03] |};
  cpf_envSchema := "{}" |}.

(** The same registration with another description, schema and payload. *)
Definition acme_again : CreatePipeWithFileDTO := {|
  cpf_name := "acme"; cpf_version := "1.0.0"; cpf_description := Some "B";
  cpf_file := {| mf_file := Delivers [Byte.x04] |};
  cpf_envSchema := "{k:1}" |}.

Definition acme_next : CreatePipeWithFileDTO := {|
  cpf_name := "acme"; cpf_version := "1.1.0"; cpf_description := Some "B";
  cpf_file := {| mf_file := Delivers [Byte.x04] |};
  cpf_envSchema := "{}" |}.

(** An upload whose stream breaks after one byte. *)
Definition acme_broken : CreatePipeWithFileDTO := {|
  cpf_name := "acme"; cpf_version := "1.0.0"; cpf_description := None;
  cpf_file := {| mf_file := Destroyed [Byte.x01] |};
  cpf_envSchema := "{}" |}.

(** The world after [acme_upload] went through on a fresh installation. *)
Definition acme_world : World :=
  snd (@PipeService.createPipeWithFile sample_platform acme_upload fresh_world).

(** The world after [acme_next] was registered on top of it. *)
Definition acme_two_world : World :=
  snd (@PipeService.createPipeWithFile sample_platform acme_next acme_world).

Definition acme_pipe : Pipe.t := Pipe.mk 1 "acme" (Some "A") 1000 1001.

Definition acme_v1 : Version.t :=
  Version.mk 1 1 "1.0.0" "http://localhost:3000/files/acme-1.0.0.tar" 1002 1003 "{}".

Definition acme_v2 : Version.t :=
  Version.mk 2 1 "1.1.0" "http://localhost:3000/files/acme-1.1.0.tar" 1004 1005 "{}".

(** [acme_world] after a registration without an archive
    ([createPipe]): version 9.9.9 has an empty asset URL. *)
Definition acme_bare_world : World :=
  snd (PipeService.createPipe
         {| cp_name := "acme"; cp_description := None;
            cp_version := "9.9.9"; cp_envSchema := "{}" |} acme_world).

Definition acme_999 : DownloadParams :=
  {| dp_name := "acme"; dp_version := Some "9.9.9" |}.

(** Twenty-five pipes [A] .. [Y] registered one after the other, none
    with a version yet; pipe number [i] was created at time [1000 + i]. *)
Definition numbered_pipe (i : Z) : Pipe.t :=
  Pipe.mk i (String (Ascii.ascii_of_nat (Z.to_nat (64 + i))) EmptyString) None
          (1000 + i) (1000 + i).

Definition twenty_five_pipes : World := {|
  pipes := numbered_pipe <$> seqZ 1 25; versions := [];
  pipes_id_seq := 26; versions_id_seq := 1;
  files := ∅; fs_fault := λ _, false;
  clock := λ n, 2000 + Z.of_nat n; clock_reads := 0 |}.

Definition page_of (page limit : Z) : PipeQueryOptions :=
  {| pq_page := Some page; pq_limit := Some limit;
     pq_search := None; pq_includeVersions := None |}.

(** The grouped list the paging of [findManyWithVersions] is meant to cut:
    all joined rows that pass the filter, ordered and grouped by pipe. *)
Definition joined_rows `{Platform} (search : option string) (w : World)
    : list JoinedRow :=
  PipeRepository.whereSearchJoined search (leftJoin (pipes w) (versions w)).

Definition grouped_pipes `{Platform} (search : option string) (w : World)
    : list PipeWithVersions :=
  JsMap.values (foldl PipeRepository.groupRow []
                  (merge_sort joined_desc (joined_rows search w))).

(** * Properties *)

(** ** Running the monad *)

Ltac unfold_m :=
  unfold bind, try_catch, gets, modify, throw, ret, newDate in *.

Lemma bind_inv {A B} (m : M A) (k : A → M B) w r w' :
  bind m k w = (r, w') →
  (∃ e, m w = (inl e, w') ∧ r = inl e) ∨
  (∃ a w1, m w = (inr a, w1) ∧ k a w1 = (r, w')).
Proof.
  unfold bind. destruct (m w) as [[e|a] w1]; intros Hr.
  - left. exists e. by simplify_eq.
  - right. by exists a, w1.
Qed.

(** ** Storage backend *)

Lemma insertPipe_inv d w r w' :
  Db.insertPipe d w = (r, w') →
  versions w' = versions w ∧ files w' = files w ∧
  ((∃ e, r = inl e ∧ pipes w' = pipes w) ∨
   (∃ p, r = inr p ∧ pipes w' = pipes w ++ [p] ∧
         Pipe.name p = np_name d ∧ Pipe.description p = np_description d ∧
         Pipe.createdAt p = np_createdAt d ∧ Pipe.updatedAt p = np_updatedAt d ∧
         Pipe.id p ∉ Pipe.id <$> pipes w)).
Proof.
  unfold Db.insertPipe. case_bool_decide as Hid; intros ?; simplify_eq; simpl.
  - split_and!; [done..|]. left. eauto.
  - split_and!; [done..|]. right. eexists. split_and!; done.
Qed.

Lemma insertVersion_inv d w r w' :
  Db.insertVersion d w = (r, w') →
  pipes w' = pipes w ∧ files w' = files w ∧
  ((∃ e, r = inl e ∧ versions w' = versions w) ∨
   (∃ v, r = inr v ∧ versions w' = versions w ++ [v] ∧
         Version.pipeId v = cv_pipeId (nv_data d) ∧
         Version.versionNumber v = cv_versionNumber (nv_data d) ∧
         Version.assetUrl v = cv_assetUrl (nv_data d) ∧
         Version.envSchema v = cv_envSchema (nv_data d) ∧
         Version.versionNumber v ∉ Version.versionNumber <$> versions w)).
Proof.
  unfold Db.insertVersion.
  repeat case_bool_decide; intros ?; simplify_eq; simpl;
    (split_and!; [done..|]); first [ left; by eauto | right ].
  eexists. split_and!; done.
Qed.

(** A version number already in the table is refused on a uniqueness
    constraint, whichever index reports it first. *)
Lemma insertVersion_duplicate d w :
  cv_versionNumber (nv_data d) ∈ Version.versionNumber <$> versions w →
  ∃ c w', Db.insertVersion d w = (inl (UniqueViolation c), w') ∧
          pipes w' = pipes w ∧ versions w' = versions w.
Proof.
  intros Hdup. unfold Db.insertVersion.
  case_bool_decide; [by eauto|].
  rewrite bool_decide_eq_true_2 by done. by eauto.
Qed.

(** ** Archive store *)

Section ArchiveStore.
Context `{Platform}.

(** Storing a file touches the file system only, and every failure
    surfaces as the one generic error. *)
Lemma storeFile_inv file pipeName version w r w' :
  FileStorageService.storeFile file pipeName version w = (r, w') →
  same_db w w' ∧ clock w' = clock w ∧ clock_reads w' = clock_reads w ∧
  (∀ e, r = inl e → e = Error "Failed to store file").
Proof.
  unfold FileStorageService.storeFile, Fs.pipeline, Fs.stat_size, same_db, same_tables.
  unfold_m. simpl.
  destruct (fs_fault w _); [|destruct (mf_file file); simpl];
    rewrite ?lookup_insert_eq; intros ?; simplify_eq; simpl;
    (split_and!; [done..|]); intros ? ?; by simplify_eq.
Qed.

(** A destroyed upload, or a path that cannot be opened, makes it fail. *)
Lemma storeFile_fails file pipeName version w :
  (∃ sent, mf_file file = Destroyed sent) ∨
  fs_fault w (path_join FileStorageService.storageDir
                (pipeName +:+ "-" +:+ version +:+ ".tar")) = true →
  ∃ w', FileStorageService.storeFile file pipeName version w
        = (inl (Error "Failed to store file"), w').
Proof.
  unfold FileStorageService.storeFile, Fs.pipeline, Fs.stat_size.
  unfold_m. simpl. intros [[sent ->]| ->]; [destruct (fs_fault w _)|]; eauto.
Qed.

Lemma fileExists_inv fileName w :
  FileStorageService.fileExists fileName w
  = (inr (if files w !! path_join FileStorageService.storageDir fileName
          is Some _ then true else false), w).
Proof.
  unfold FileStorageService.fileExists, Fs.access. unfold_m. simpl.
  by destruct (files w !! _).
Qed.

End ArchiveStore.

(** ** Repository reads *)

Lemma head_filter_Some {A} (P : A → Prop) `{∀ x, Decision (P x)} (l : list A) x :
  head (filter P l) = Some x → x ∈ l ∧ P x.
Proof.
  intros Hh. rewrite head_lookup in Hh.
  apply list_elem_of_lookup_2, list_elem_of_filter in Hh. tauto.
Qed.

Lemma head_filter_None {A} (P : A → Prop) `{∀ x, Decision (P x)} (l : list A) :
  head (filter P l) = None ↔ ∀ x, x ∈ l → ¬ P x.
Proof.
  split.
  - intros Hh x Hx HP.
    assert (x ∈ filter P l) as Hin by (apply list_elem_of_filter; done).
    destruct (filter P l); [by apply elem_of_nil in Hin | done].
  - intros Hall. destruct (filter P l) as [|y ?] eqn:E; [done|].
    assert (y ∈ filter P l) as Hin by (rewrite E; left).
    apply list_elem_of_filter in Hin as [? ?]. naive_solver.
Qed.

Lemma findById_present p w :
  p ∈ pipes w → ∃ q, PipeRepository.findById (Pipe.id p) w = (inr (Some q), w).
Proof.
  intros Hp. unfold PipeRepository.findById, gets.
  destruct (head _) as [q|] eqn:E; [by eauto|].
  pose proof (proj1 (head_filter_None _ _) E p Hp) as Hne. by destruct Hne.
Qed.

(** ** Version service: creation *)

Lemma createVersion_inv dto w r w' :
  VersionService.createVersion dto w = (r, w') →
  pipes w' = pipes w ∧ files w' = files w ∧
  ((∃ e, r = inl e ∧ versions w' = versions w) ∨
   (∃ v, r = inr v ∧ versions w' = versions w ++ [v] ∧
         Version.pipeId v = cv_pipeId dto ∧
         Version.versionNumber v = cv_versionNumber dto ∧
         Version.assetUrl v = cv_assetUrl dto ∧
         Version.envSchema v = cv_envSchema dto ∧
         Version.versionNumber v ∉ Version.versionNumber <$> versions w)).
Proof.
  unfold VersionService.createVersion, PipeRepository.findById, VersionRepository.create.
  unfold_m. destruct (head _).
  - intros Hins. apply insertVersion_inv in Hins. exact Hins.
  - intros ?; simplify_eq. split_and!; [done..|]. left. eauto.
Qed.

Lemma createVersion_duplicate dto w p :
  p ∈ pipes w → cv_pipeId dto = Pipe.id p →
  cv_versionNumber dto ∈ Version.versionNumber <$> versions w →
  ∃ c w', VersionService.createVersion dto w = (inl (UniqueViolation c), w') ∧
          pipes w' = pipes w ∧ versions w' = versions w.
Proof.
  intros Hp Hid Hdup.
  destruct (findById_present p w Hp) as [q Hq].
  unfold VersionService.createVersion, VersionRepository.create, bind.
  rewrite Hid, Hq. unfold newDate.
  match goal with |- context [Db.insertVersion ?d ?w1] =>
    destruct (insertVersion_duplicate d w1 Hdup) as (c & w' & -> & ? & ?) end.
  by eauto.
Qed.

(** ** Pipe service: the upsert protocol *)

Section Upsert.
Context `{Platform}.

Lemma getPipeByName_eq name w :
  PipeService.getPipeByName name w
  = (inr (head (filter (λ p, Pipe.name p = name) (pipes w))), w).
Proof. done. Qed.

(** Every way a call to [createPipeWithFile] can go. *)
Lemma createPipeWithFile_inv d w r w' :
  PipeService.createPipeWithFile d w = (r, w') →
  (FileStorageService.storeFile (cpf_file d) (cpf_name d) (cpf_version d) w
   = (inl (Error "Failed to store file"), w') ∧
   r = inl (Error "Failed to store file") ∧ same_db w w') ∨
  (∃ sf ws,
     FileStorageService.storeFile (cpf_file d) (cpf_name d) (cpf_version d) w
     = (inr sf, ws) ∧
     match head (filter (λ p, Pipe.name p = cpf_name d) (pipes w)) with
     | Some q =>
         pipes w' = pipes w ∧
         ((∃ e, r = inl e ∧ versions w' = versions w) ∨
          (∃ v, r = inr (q, v) ∧ added_version d sf q v w w'))
     | None =>
         (∃ e, r = inl e ∧ versions w' = versions w) ∨
         (∃ p v, r = inr (p, v) ∧ pipes w' = pipes w ++ [p] ∧
                 Pipe.name p = cpf_name d ∧
                 Pipe.description p = cpf_description d ∧
                 added_version d sf p v w w')
     end).
Proof.
  unfold PipeService.createPipeWithFile. intros Hrun.
  apply bind_inv in Hrun as [(e & Hst & ->)|(sf & ws & Hst & Hrun)].
  { left. destruct (storeFile_inv _ _ _ _ _ _ Hst) as (Hdb & _ & _ & He).
    rewrite (He e eq_refl) in *. done. }
  right. exists sf, ws. split; [done|].
  destruct (storeFile_inv _ _ _ _ _ _ Hst) as (((Hp & Hv) & _) & _).
  unfold bind at 1 in Hrun. rewrite getPipeByName_eq, Hp in Hrun. destruct (head _) as [q|].
  - apply bind_inv in Hrun as [(e & Hcv & ->)|(v & w1 & Hcv & Hret)];
      apply createVersion_inv in Hcv as (Hp1 & _ & Hcase).
    + split; [congruence|]. left. exists e. split; [done|].
      destruct Hcase as [(? & ? & ?)|(? & ? & _)]; [congruence|done].
    + unfold ret in Hret. simplify_eq. split; [congruence|]. right. exists v.
      split; [done|]. destruct Hcase as [(? & ? & _)|(v' & ? & Hvs & ? & ? & ? & ? & _)];
        [done|]. simplify_eq. unfold added_version. rewrite Hvs, Hv. done.
  - unfold bind at 1 2, newDate at 1 2 in Hrun.
    apply bind_inv in Hrun as [(e & Hins & ->)|(p & w1 & Hins & Hrun)];
      apply insertPipe_inv in Hins as (Hv1 & _ & Hcase); simpl in *.
    + left. exists e. split; [done|]. congruence.
    + destruct Hcase as [(? & ? & _)|(p' & ? & Hps & ? & ? & _)]; [done|]. simplify_eq.
      apply bind_inv in Hrun as [(e & Hcv & ->)|(v & w2 & Hcv & Hret)];
        apply createVersion_inv in Hcv as (Hp2 & _ & Hcase).
      * left. exists e. split; [done|].
        destruct Hcase as [(? & ? & ?)|(? & ? & _)]; [congruence|done].
      * unfold ret in Hret. simplify_eq. right. exists p', v.
        destruct Hcase as [(? & ? & _)|(v' & ? & Hvs & ? & ? & ? & ? & _)]; [done|].
        simplify_eq. split_and!; try done; [congruence|].
        unfold added_version. rewrite Hvs, Hv1, Hv. done.
Qed.

End Upsert.

Lemma createPipeWithFile_rejected `{Platform} d w e ws :
  FileStorageService.storeFile (cpf_file d) (cpf_name d) (cpf_version d) w
  = (inl e, ws) →
  PipeService.createPipeWithFile d w = (inl e, ws).
Proof.
  intros Hst. unfold PipeService.createPipeWithFile. unfold bind at 1.
  by rewrite Hst.
Qed.

Lemma createPipeWithFile_attach `{Platform} d w sf ws q :
  FileStorageService.storeFile (cpf_file d) (cpf_name d) (cpf_version d) w
  = (inr sf, ws) →
  head (filter (λ p, Pipe.name p = cpf_name d) (pipes ws)) = Some q →
  PipeService.createPipeWithFile d w
  = (version <- VersionService.createVersion
                  {| cv_pipeId := Pipe.id q;
                     cv_versionNumber := cpf_version d;
                     cv_assetUrl := sf_url sf;
                     cv_envSchema := cpf_envSchema d |} ;;
     ret (q, version)) ws.
Proof.
  intros Hst Hq. unfold PipeService.createPipeWithFile. unfold bind at 1.
  rewrite Hst. unfold bind at 1. by rewrite getPipeByName_eq, Hq.
Qed.

Lemma createPipeWithFile_run `{Platform} d w :
  PipeService.createPipeWithFile d w
  = (fst (PipeService.createPipeWithFile d w),
     snd (PipeService.createPipeWithFile d w)).
Proof. by destruct (PipeService.createPipeWithFile d w). Qed.

Lemma head_filter_name_None name (ps : list Pipe.t) :
  name ∉ Pipe.name <$> ps → head (filter (λ p, Pipe.name p = name) ps) = None.
Proof.
  intros Hfresh. apply (proj2 (head_filter_None _ _)). intros p Hp Hname.
  apply Hfresh, list_elem_of_fmap. eauto.
Qed.

Lemma head_filter_name_Some name (ps : list Pipe.t) :
  name ∈ Pipe.name <$> ps →
  ∃ q, head (filter (λ p, Pipe.name p = name) ps) = Some q ∧
       q ∈ ps ∧ Pipe.name q = name.
Proof.
  intros Hin. apply list_elem_of_fmap in Hin as (p & -> & Hp).
  destruct (head _) as [q|] eqn:E.
  - exists q. split; [done|]. by apply head_filter_Some in E.
  - pose proof (proj1 (head_filter_None _ _) E p Hp) as Hne. by destruct Hne.
Qed.

(** C1. When persisting the uploaded archive fails, [createPipeWithFile]
    fails as a whole with the archive store's error ("Failed to store
    file"), and the database is as it was: no Pipe row, no Version row, no
    sequence value consumed. *)
Theorem createPipeWithFile_store_failure `{Platform} d w e :
  fst (FileStorageService.storeFile (cpf_file d) (cpf_name d) (cpf_version d) w)
  = inl e →
  fst (PipeService.createPipeWithFile d w) = inl (Error "Failed to store file") ∧
  same_db w (snd (PipeService.createPipeWithFile d w)).
Proof.
  intros Hst. pose proof (createPipeWithFile_run d w) as Hrun.
  apply createPipeWithFile_inv in Hrun as [(_ & -> & Hdb)|(sf & ws & Hok & _)]; [done|].
  rewrite Hok in Hst. done.
Qed.

Lemma createPipeWithFile_store_failure_witness :
  fst (@PipeService.createPipeWithFile sample_platform acme_broken acme_world)
  = inl (Error "Failed to store file") ∧
  same_db acme_world
    (snd (@PipeService.createPipeWithFile sample_platform acme_broken acme_world)).
Proof.
  apply (@createPipeWithFile_store_failure sample_platform acme_broken acme_world
           (Error "Failed to store file")).
  vm_compute. reflexivity.
Defined.

(** C2. When no pipe carries the name, a successful [createPipeWithFile]
    appends exactly one row to [pipes] and exactly one row to [versions];
    these are the returned Pipe and Version, the Version's [pipeId] is the
    Pipe's [id], and both carry the submitted name, description, version
    number and schema. *)
Theorem createPipeWithFile_new_name `{Platform} d w p v w' :
  cpf_name d ∉ Pipe.name <$> pipes w →
  PipeService.createPipeWithFile d w = (inr (p, v), w') →
  pipes w' = pipes w ++ [p] ∧
  versions w' = versions w ++ [v] ∧
  Version.pipeId v = Pipe.id p ∧
  Pipe.name p = cpf_name d ∧
  Pipe.description p = cpf_description d ∧
  Version.versionNumber v = cpf_version d ∧
  Version.envSchema v = cpf_envSchema d.
Proof.
  intros Hfresh Hrun.
  apply createPipeWithFile_inv in Hrun as [(_ & ? & _)|(sf & ws & _ & Hcase)]; [done|].
  rewrite (head_filter_name_None _ _ Hfresh) in Hcase.
  destruct Hcase as [(e & ? & _)|(p' & v' & ? & Hps & ? & ? & Hvs & ? & ? & _ & ?)];
    [done|]. by simplify_eq.
Qed.

Lemma createPipeWithFile_new_name_witness :
  pipes acme_world = pipes fresh_world ++ [acme_pipe] ∧
  versions acme_world = versions fresh_world ++ [acme_v1] ∧
  Version.pipeId acme_v1 = Pipe.id acme_pipe ∧
  Pipe.name acme_pipe = cpf_name acme_upload ∧
  Pipe.description acme_pipe = cpf_description acme_upload ∧
  Version.versionNumber acme_v1 = cpf_version acme_upload ∧
  Version.envSchema acme_v1 = cpf_envSchema acme_upload.
Proof.
  apply (@createPipeWithFile_new_name sample_platform acme_upload fresh_world
           acme_pipe acme_v1 acme_world).
  - apply (bool_decide_unpack _). vm_compute. exact I.
  - vm_compute. reflexivity.
Defined.

(** C10. When the name is that of an existing pipe, [createPipeWithFile]
    leaves the [pipes] table exactly as it was, whether the call succeeds
    or not: the submitted description goes nowhere and no [updatedAt] is
    touched. A successful call returns an existing row of that name and
    appends one Version row under its id. *)
Theorem createPipeWithFile_existing_name `{Platform} d w :
  cpf_name d ∈ Pipe.name <$> pipes w →
  pipes (snd (PipeService.createPipeWithFile d w)) = pipes w ∧
  ((∃ e, fst (PipeService.createPipeWithFile d w) = inl e ∧
         versions (snd (PipeService.createPipeWithFile d w)) = versions w) ∨
   (∃ q v, fst (PipeService.createPipeWithFile d w) = inr (q, v) ∧
           q ∈ pipes w ∧ Pipe.name q = cpf_name d ∧
           versions (snd (PipeService.createPipeWithFile d w)) = versions w ++ [v] ∧
           Version.pipeId v = Pipe.id q ∧
           Version.versionNumber v = cpf_version d)).
Proof.
  intros Hin. pose proof (createPipeWithFile_run d w) as Hrun.
  apply createPipeWithFile_inv in Hrun
    as [(_ & -> & ((? & ?) & _))|(sf & ws & _ & Hcase)].
  { split; [done|]. left. eauto. }
  destruct (head_filter_name_Some _ _ Hin) as (q & Hq & Hqin & Hname).
  rewrite Hq in Hcase. destruct Hcase as [Hps [(e & -> & ?)|(v & -> & Hv & ? & ? & _)]].
  - split; [done|]. left. eauto.
  - split; [done|]. right. exists q, v. done.
Qed.

Lemma createPipeWithFile_existing_name_witness :
  pipes (snd (@PipeService.createPipeWithFile sample_platform acme_next acme_world))
  = pipes acme_world ∧
  ((∃ e, fst (@PipeService.createPipeWithFile sample_platform acme_next acme_world)
         = inl e ∧
         versions (snd (@PipeService.createPipeWithFile sample_platform acme_next
                          acme_world))
         = versions acme_world) ∨
   (∃ q v, fst (@PipeService.createPipeWithFile sample_platform acme_next acme_world)
           = inr (q, v) ∧
           q ∈ pipes acme_world ∧ Pipe.name q = cpf_name acme_next ∧
           versions (snd (@PipeService.createPipeWithFile sample_platform acme_next
                            acme_world))
           = versions acme_world ++ [v] ∧
           Version.pipeId v = Pipe.id q ∧
           Version.versionNumber v = cpf_version acme_next)).
Proof.
  apply (@createPipeWithFile_existing_name sample_platform acme_next acme_world).
  apply (bool_decide_unpack _). vm_compute. exact I.
Defined.

(** C3. After a successful [createPipeWithFile], a second call with the
    same name and version number fails, and neither table changes: no
    second Version row is created. Once the second call's archive has been
    persisted, the failure is a uniqueness violation raised by the insert
    into [versions]. *)
Theorem createPipeWithFile_same_version_twice `{Platform} d1 d2 w p v w1 :
  cpf_name d2 = cpf_name d1 →
  cpf_version d2 = cpf_version d1 →
  PipeService.createPipeWithFile d1 w = (inr (p, v), w1) →
  ∃ e, fst (PipeService.createPipeWithFile d2 w1) = inl e ∧
       versions (snd (PipeService.createPipeWithFile d2 w1)) = versions w1 ∧
       pipes (snd (PipeService.createPipeWithFile d2 w1)) = pipes w1 ∧
       (fulfilled (fst (FileStorageService.storeFile
                       (cpf_file d2) (cpf_name d2) (cpf_version d2) w1)) → 
        isUniqueViolation e = true).
Proof.
  intros Hname Hver Hfirst.
  (* what the first call left behind *)
  assert (cpf_version d1 ∈ Version.versionNumber <$> versions w1 ∧
          cpf_name d1 ∈ Pipe.name <$> pipes w1) as [Hdup Hpipe].
  { apply createPipeWithFile_inv in Hfirst as [(_ & ? & _)|(sf & ws & _ & Hcase)]; [done|].
    destruct (head _) as [q|] eqn:Hq.
    - destruct Hcase as [Hps [(? & ? & _)|(v' & ? & Hvs & _ & Hvn & _)]]; [done|].
      simplify_eq. split.
      + rewrite Hvs, fmap_app. apply elem_of_app. right. rewrite <- Hvn. set_solver.
      + apply head_filter_Some in Hq as [Hqin <-]. rewrite Hps.
        apply list_elem_of_fmap. eauto.
    - destruct Hcase as [(? & ? & _)|(p' & v' & ? & Hps & Hpn & _ & Hvs & _ & Hvn & _)];
        [done|]. simplify_eq. split.
      + rewrite Hvs, fmap_app. apply elem_of_app. right. rewrite <- Hvn. set_solver.
      + rewrite Hps, fmap_app. apply elem_of_app. right. rewrite <- Hpn. set_solver. }
  (* the second call *)
  rewrite <- Hver in Hdup. rewrite <- Hname in Hpipe.
  destruct (FileStorageService.storeFile (cpf_file d2) (cpf_name d2)
              (cpf_version d2) w1) as [[e|sf] ws] eqn:Hst;
    pose proof (storeFile_inv _ _ _ _ _ _ Hst) as (((Hp & Hv) & _) & _).
  { rewrite (createPipeWithFile_rejected _ _ _ _ Hst). exists e. simpl.
    split_and!; [done..|]. intros []. }
  rewrite <- Hp in Hpipe. rewrite <- Hv in Hdup.
  destruct (head_filter_name_Some _ _ Hpipe) as (q & Hq & Hqin & _).
  rewrite (createPipeWithFile_attach _ _ _ _ _ Hst Hq). unfold bind.
  edestruct (createVersion_duplicate
               {| cv_pipeId := Pipe.id q; cv_versionNumber := cpf_version d2;
                  cv_assetUrl := sf_url sf; cv_envSchema := cpf_envSchema d2 |}
               ws q Hqin eq_refl Hdup) as (c & w2 & -> & Hp2 & Hv2).
  exists (UniqueViolation c). simpl. split_and!; [done|congruence|congruence|done].
Qed.

Lemma createPipeWithFile_same_version_twice_witness :
  ∃ e, fst (@PipeService.createPipeWithFile sample_platform acme_again acme_world)
       = inl e ∧
       versions (snd (@PipeService.createPipeWithFile sample_platform acme_again
                        acme_world))
       = versions acme_world ∧
       pipes (snd (@PipeService.createPipeWithFile sample_platform acme_again
                     acme_world))
       = pipes acme_world ∧
       (fulfilled (fst (@FileStorageService.storeFile sample_platform
                       (cpf_file acme_again) (cpf_name acme_again)
                       (cpf_version acme_again) acme_world)) → 
        isUniqueViolation e = true).
Proof.
  apply (@createPipeWithFile_same_version_twice sample_platform
           acme_upload acme_again fresh_world acme_pipe acme_v1 acme_world).
  - reflexivity.
  - reflexivity.
  - vm_compute. reflexivity.
Defined.

Example createPipeWithFile_same_version_twice_acme :
  fst (@PipeService.createPipeWithFile sample_platform acme_again acme_world)
  = inl (UniqueViolation "versions_version_number_unique") ∧
  fst (@PipeService.createPipeWithFile sample_platform acme_broken acme_world)
  = inl (Error "Failed to store file").
Proof. by vm_compute. Qed.

(** ** Pipe service: download resolution *)

#[global] Instance desc_by_total {A} (key : A → Z) : Total (desc_by key).
Proof. intros a b. unfold desc_by. lia. Qed.

#[global] Instance desc_by_trans {A} (key : A → Z) : Transitive (desc_by key).
Proof. intros a b c. unfold desc_by. lia. Qed.

(** The first row of a descending order is a row of the input that no
    other row exceeds. *)
Lemma head_orderByDesc {A} (key : A → Z) (rows : list A) x :
  head (Db.orderByDesc key rows) = Some x →
  x ∈ rows ∧ ∀ y, y ∈ rows → key y ≤ key x.
Proof.
  unfold Db.orderByDesc. intros Hhead.
  pose proof (merge_sort_Permutation (desc_by key) rows) as Hperm.
  pose proof (StronglySorted_merge_sort (desc_by key) rows) as Hsorted.
  destruct (merge_sort (desc_by key) rows) as [|x' sorted]; simplify_eq/=.
  apply StronglySorted_cons in Hsorted as [Hall _]. split.
  - rewrite <- Hperm. left.
  - intros y Hy. rewrite <- Hperm in Hy.
    apply elem_of_cons in Hy as [->|Hy]; [lia|].
    rewrite Forall_forall in Hall. by apply Hall.
Qed.

Lemma head_orderByDesc_is_Some {A} (key : A → Z) (rows : list A) y :
  y ∈ rows → is_Some (head (Db.orderByDesc key rows)).
Proof.
  unfold Db.orderByDesc. intros Hy.
  rewrite <- (merge_sort_Permutation (desc_by key) rows) in Hy.
  destruct (merge_sort (desc_by key) rows); [by apply elem_of_nil in Hy|by eexists].
Qed.

Lemma findLatestByPipeId_eq pipeId w :
  VersionRepository.findLatestByPipeId pipeId w
  = (inr (head (Db.orderByDesc Version.createdAt
                  (filter (λ v, Version.pipeId v = pipeId) (versions w)))), w).
Proof.
  unfold VersionRepository.findLatestByPipeId, Db.limitOffset. unfold_m. simpl.
  by destruct (Db.orderByDesc _ _).
Qed.

Section Download.
Context `{Platform}.

(** Looking a pipe up by name yields a row of the table, so the version
    service's existence check on its id passes: selection reads the
    tables and never throws. *)
Lemma selectVersion_eq p version w :
  p ∈ pipes w →
  PipeService.selectVersion p version w
  = (inr (if truthy_opt_string version
          then head (filter (λ v, Some (Version.versionNumber v) = version)
                       (Db.orderByDesc Version.createdAt
                          (filter (λ v, Version.pipeId v = Pipe.id p) (versions w))))
          else head (Db.orderByDesc Version.createdAt
                       (filter (λ v, Version.pipeId v = Pipe.id p) (versions w)))),
     w).
Proof.
  intros Hp. destruct (findById_present p w Hp) as [q Hq].
  unfold PipeService.selectVersion, VersionService.getVersionsByPipeId,
    VersionService.getLatestVersionByPipeId.
  destruct (truthy_opt_string version); unfold bind; rewrite Hq.
  - done.
  - apply findLatestByPipeId_eq.
Qed.

Lemma getPipeByName_inv name w p :
  fst (PipeService.getPipeByName name w) = inr (Some p) →
  head (filter (λ q, Pipe.name q = name) (pipes w)) = Some p ∧
  p ∈ pipes w ∧ Pipe.name p = name.
Proof.
  rewrite getPipeByName_eq. simpl. intros [= Hhead]. split; [done|].
  by apply head_filter_Some in Hhead.
Qed.

(** The rest of [getPipeForDownload] once the pipe and the version are
    settled: the asset URL and the archive decide. *)
Lemma getPipeForDownload_selected name version w p v :
  fst (PipeService.getPipeByName name w) = inr (Some p) →
  fst (PipeService.selectVersion p version w) = inr (Some v) →
  PipeService.getPipeForDownload name version w
  = (inr (if truthy_string (Version.assetUrl v)
          then (if files w !! path_join FileStorageService.storageDir
                               (Pipe.name p +:+ "-" +:+ Version.versionNumber v +:+ ".tar")
                is Some _
                then Some {| dl_pipe := p; dl_version := v;
                             dl_filePath :=
                               path_join FileStorageService.storageDir
                                 (Pipe.name p +:+ "-" +:+ Version.versionNumber v
                                  +:+ ".tar") |}
                else None)
          else None), w).
Proof.
  intros Hp Hv. apply getPipeByName_inv in Hp as (Hhead & Hin & _).
  rewrite (selectVersion_eq _ _ _ Hin) in Hv. simpl in Hv.
  unfold PipeService.getPipeForDownload. unfold bind at 1.
  rewrite getPipeByName_eq, Hhead. unfold bind at 1.
  rewrite (selectVersion_eq _ _ _ Hin). simplify_eq. rewrite Hv.
  destruct (truthy_string (Version.assetUrl v)); simpl; [|done].
  unfold bind. rewrite fileExists_inv. unfold FileStorageService.getFilePath.
  by destruct (files w !! _).
Qed.

End Download.

Lemma truthy_string_false s : truthy_string s = false ↔ s = EmptyString.
Proof.
  unfold truthy_string. rewrite negb_false_iff. apply String.eqb_eq.
Qed.

(** C4. For a pipe that exists and has at least one version, a download
    without a version number (absent or empty) selects a version of that
    pipe whose [createdAt] no other version of the pipe exceeds, and
    [getPipeForDownload] resolves to it: when that version has a
    non-empty [assetUrl] and its archive is in the store, the call
    returns the pipe, that version and the archive's path; otherwise it
    returns null. Either way it reads only: whenever it returns a result,
    it is that pipe with that version. *)
Theorem getPipeForDownload_latest `{Platform} name version w p :
  truthy_opt_string version = false →
  fst (PipeService.getPipeByName name w) = inr (Some p) →
  Pipe.id p ∈ Version.pipeId <$> versions w →
  ∃ v, fst (PipeService.selectVersion p version w) = inr (Some v) ∧
       v ∈ versions w ∧
       Version.pipeId v = Pipe.id p ∧
       (∀ v', v' ∈ versions w → Version.pipeId v' = Pipe.id p →
              Version.createdAt v' ≤ Version.createdAt v) ∧
       (∀ r, fst (PipeService.getPipeForDownload name version w) = inr (Some r) →
             dl_pipe r = p ∧ dl_version r = v) ∧
       (Version.assetUrl v ≠ EmptyString →
        fst (FileStorageService.fileExists
               (Pipe.name p +:+ "-" +:+ Version.versionNumber v +:+ ".tar") w)
        = inr true →
        PipeService.getPipeForDownload name version w
        = (inr (Some {| dl_pipe := p; dl_version := v;
                        dl_filePath :=
                          FileStorageService.getFilePath
                            (Pipe.name p +:+ "-" +:+ Version.versionNumber v
                             +:+ ".tar") |}), w)) ∧
       (Version.assetUrl v = EmptyString ∨
        fst (FileStorageService.fileExists
               (Pipe.name p +:+ "-" +:+ Version.versionNumber v +:+ ".tar") w)
        = inr false →
        PipeService.getPipeForDownload name version w = (inr None, w)).
Proof.
  intros Hnone Hp Hhas.
  pose proof (getPipeByName_inv _ _ _ Hp) as (_ & Hin & _).
  apply list_elem_of_fmap in Hhas as (v0 & Hid & Hv0).
  assert (v0 ∈ filter (λ v, Version.pipeId v = Pipe.id p) (versions w)) as Hv0'
    by (by apply list_elem_of_filter).
  destruct (head_orderByDesc_is_Some Version.createdAt _ _ Hv0') as [v Hv].
  assert (fst (PipeService.selectVersion p version w) = inr (Some v)) as Hsel
    by (by rewrite (selectVersion_eq _ _ _ Hin), Hnone; simpl; rewrite Hv).
  exists v. apply head_orderByDesc in Hv as [Hvin Hmax].
  apply list_elem_of_filter in Hvin as [Hvid Hvin].
  rewrite (getPipeForDownload_selected _ _ _ _ _ Hp Hsel), fileExists_inv.
  unfold FileStorageService.getFilePath. simpl.
  split_and!; try done.
  - intros v' Hv' Hid'. apply Hmax. by apply list_elem_of_filter.
  - intros r. repeat case_match; intros ?; by simplify_eq.
  - intros Hurl Hfile. destruct (truthy_string (Version.assetUrl v)) eqn:Htruthy.
    + by destruct (files w !! _).
    + by apply truthy_string_false in Htruthy.
  - intros [Hurl|Hfile].
    + apply truthy_string_false in Hurl. by rewrite Hurl.
    + destruct (files w !! _); [done|]. by destruct (truthy_string _).
Qed.

Lemma getPipeForDownload_latest_witness :
  fst (PipeService.selectVersion acme_pipe None acme_two_world)
  = inr (Some acme_v2) ∧
  @PipeService.getPipeForDownload sample_platform "acme" None acme_two_world
  = (inr (Some {| dl_pipe := acme_pipe; dl_version := acme_v2;
                  dl_filePath :=
                    @FileStorageService.getFilePath sample_platform
                      "acme-1.1.0.tar" |}), acme_two_world).
Proof.
  destruct (@getPipeForDownload_latest sample_platform "acme" None
              acme_two_world acme_pipe)
    as (v & Hsel & _ & _ & _ & _ & Hresolved & _).
  - reflexivity.
  - vm_compute. reflexivity.
  - apply (bool_decide_unpack _). vm_compute. exact I.
  - assert (v = acme_v2) as ->.
    { vm_compute in Hsel. by injection Hsel as <-. }
    split; [exact Hsel|]. apply Hresolved.
    + discriminate.
    + vm_compute. reflexivity.
Defined.



(** ** Download controller *)

Section DownloadReply.
Context `{Platform}.

Lemma getPipeForDownload_failure name version w c :
  download_failure name version w = Some c →
  PipeService.getPipeForDownload name version w = (inr None, w).
Proof.
  unfold download_failure. intros Hfail.
  destruct (fst (PipeService.getPipeByName name w)) as [e|[p|]] eqn:Hp.
  - by rewrite getPipeByName_eq in Hp.
  - destruct (fst (PipeService.selectVersion p version w)) as [e|[v|]] eqn:Hv.
    + pose proof (getPipeByName_inv _ _ _ Hp) as (_ & Hin & _).
      by rewrite (selectVersion_eq _ _ _ Hin) in Hv.
    + rewrite (getPipeForDownload_selected _ _ _ _ _ Hp Hv).
      rewrite fileExists_inv in Hfail. simpl in Hfail.
      destruct (truthy_string _); [|done]. by destruct (files w !! _); simplify_eq/=.
    + pose proof (getPipeByName_inv _ _ _ Hp) as (Hhead & Hin & _).
      rewrite (selectVersion_eq _ _ _ Hin) in Hv. simpl in Hv.
      unfold PipeService.getPipeForDownload. unfold bind at 1.
      rewrite getPipeByName_eq, Hhead. unfold bind at 1.
      rewrite (selectVersion_eq _ _ _ Hin). injection Hv as ->. done.
  - rewrite getPipeByName_eq in Hp. simpl in Hp. simplify_eq.
    unfold PipeService.getPipeForDownload. unfold bind at 1.
    by rewrite getPipeByName_eq, Hp.
Qed.

End DownloadReply.

(** C7, as the code has it. Every failing download request with a
    non-empty name is answered 404 with one combined message: "Pipe
    <name> not found or no asset available", with the version added when
    one was requested. The message is a function of the request alone: it
    is the same whether the pipe, the version or the asset is what is
    missing. *)
Theorem downloadPipe_not_found `{Platform} name version w c :
  name ≠ EmptyString →
  download_failure name version w = Some c →
  fst (PipeController.downloadPipe {| dp_name := name; dp_version := version |} w)
  = inr {| rp_status := 404; rp_headers := [];
           rp_payload := JsonError (not_found_message name version) |}.
Proof.
  intros Hname Hfail.
  unfold PipeController.downloadPipe, try_catch. simpl.
  destruct (truthy_string name) eqn:Htruthy;
    [|by apply truthy_string_false in Htruthy].
  simpl. unfold bind. rewrite (getPipeForDownload_failure _ _ _ _ Hfail). simpl.
  unfold not_found_message, truthy_opt_string. do 3 f_equal.
  destruct version as [v|]; [|done]. simpl. by destruct (truthy_string v).
Qed.

Lemma downloadPipe_not_found_witness :
  fst (@PipeController.downloadPipe sample_platform acme_999 acme_bare_world)
  = inr {| rp_status := 404; rp_headers := [];
           rp_payload := JsonError (not_found_message "acme" (Some "9.9.9")) |}.
Proof.
  apply (@downloadPipe_not_found sample_platform "acme" (Some "9.9.9")
           acme_bare_world NoAssetAvailable).
  - discriminate.
  - vm_compute. reflexivity.
Defined.

(** C7 as stated does not hold: the same request fails for each of the
    three causes in three worlds, and the three replies are one and the
    same 404. *)
Lemma downloadPipe_message_same_for_all_causes :
  @download_failure sample_platform "acme" (Some "9.9.9") fresh_world
  = Some PipeNotFound ∧
  @download_failure sample_platform "acme" (Some "9.9.9") acme_world
  = Some VersionNotFound ∧
  @download_failure sample_platform "acme" (Some "9.9.9") acme_bare_world
  = Some NoAssetAvailable ∧
  fst (@PipeController.downloadPipe sample_platform acme_999 fresh_world)
  = fst (@PipeController.downloadPipe sample_platform acme_999 acme_world) ∧
  fst (@PipeController.downloadPipe sample_platform acme_999 acme_world)
  = fst (@PipeController.downloadPipe sample_platform acme_999 acme_bare_world) ∧
  fst (@PipeController.downloadPipe sample_platform acme_999 acme_bare_world)
  = inr {| rp_status := 404; rp_headers := [];
           rp_payload := JsonError
             "Pipe 'acme' version '9.9.9' not found or no asset available" |}.
Proof. vm_compute. repeat split. Qed.

(** ** Version service: the pipe-existence check *)

Lemma findById_eq id w :
  PipeRepository.findById id w
  = (inr (head (filter (λ p, Pipe.id p = id) (pipes w))), w).
Proof. done. Qed.

(** C8, as the code has it. When the referenced pipe does not exist,
    [createVersion], [getVersionsByPipeId] and [getLatestVersionByPipeId]
    fail with "Pipe not found" before touching anything.
    [getVersionByPipeIdAndVersionNumber] and the listing [getVersions]
    filtered by [pipeId] do not look the pipe up: the former is always
    fulfilled, the latter never fails with "Pipe not found". *)
Theorem versionService_pipe_check dto versionNumber options w pipeId :
  fst (PipeRepository.findById pipeId w) = inr None →
  cv_pipeId dto = pipeId →
  vq_pipeId options = Some pipeId →
  VersionService.createVersion dto w = (inl (Error "Pipe not found"), w) ∧
  VersionService.getVersionsByPipeId pipeId w = (inl (Error "Pipe not found"), w) ∧
  VersionService.getLatestVersionByPipeId pipeId w
  = (inl (Error "Pipe not found"), w) ∧
  fulfilled (fst (VersionService.getVersionByPipeIdAndVersionNumber
                    pipeId versionNumber w)) ∧
  fst (VersionService.getVersions options w) ≠ inl (Error "Pipe not found").
Proof.
  rewrite findById_eq. simpl. intros [= Hnone] Hdto Hopt.
  split_and!.
  - unfold VersionService.createVersion, bind at 1.
    by rewrite Hdto, findById_eq, Hnone.
  - unfold VersionService.getVersionsByPipeId, bind.
    by rewrite findById_eq, Hnone.
  - unfold VersionService.getLatestVersionByPipeId, bind.
    by rewrite findById_eq, Hnone.
  - done.
  - unfold VersionService.getVersions, VersionRepository.findMany,
      VersionRepository.count, Db.limitOffset. unfold_m. simpl.
    repeat case_match; simplify_eq/=; done.
Qed.

Lemma versionService_pipe_check_witness :
  VersionService.createVersion
    {| cv_pipeId := 42; cv_versionNumber := "2.0.0";
       cv_assetUrl := "http://localhost:3000/files/ghost-2.0.0.tar";
       cv_envSchema := "{}" |} acme_world
  = (inl (Error "Pipe not found"), acme_world) ∧
  VersionService.getVersionsByPipeId 42 acme_world
  = (inl (Error "Pipe not found"), acme_world) ∧
  VersionService.getLatestVersionByPipeId 42 acme_world
  = (inl (Error "Pipe not found"), acme_world) ∧
  fulfilled (fst (VersionService.getVersionByPipeIdAndVersionNumber
                    42 "1.0.0" acme_world)) ∧
  fst (VersionService.getVersions
         {| vq_page := None; vq_limit := None; vq_pipeId := Some 42 |} acme_world)
  ≠ inl (Error "Pipe not found").
Proof.
  apply (versionService_pipe_check
           {| cv_pipeId := 42; cv_versionNumber := "2.0.0";
              cv_assetUrl := "http://localhost:3000/files/ghost-2.0.0.tar";
              cv_envSchema := "{}" |}
           "1.0.0"
           {| vq_page := None; vq_limit := None; vq_pipeId := Some 42 |}
           acme_world 42).
  - vm_compute. reflexivity.
  - reflexivity.
  - reflexivity.
Defined.

(** C8 as stated does not hold: no pipe has id 42, yet looking a version
    up by pipe id and version number returns null instead of failing, and
    the listing filtered by that pipe id fails on reading the count of an
    empty result, not with "Pipe not found". *)
Lemma versionService_lookups_without_pipe_check :
  fst (PipeRepository.findById 42 acme_world) = inr None ∧
  VersionService.getVersionByPipeIdAndVersionNumber 42 "1.0.0" acme_world
  = (inr None, acme_world) ∧
  fst (VersionService.getVersions
         {| vq_page := None; vq_limit := None; vq_pipeId := Some 42 |} acme_world)
  = inl (TypeError "Cannot read properties of undefined (reading 'count')").
Proof. vm_compute. repeat split. Qed.

(** ** Listing and counting *)

(** What [count] computes: the id of the first row that passes the
    filter. *)
Lemma count_is_first_id `{Platform} options w p rest :
  PipeRepository.whereSearch (pq_search options) (pipes w) = p :: rest →
  PipeRepository.count options w = (inr (Pipe.id p), w).
Proof.
  intros Hrows. unfold PipeRepository.count. unfold_m. by rewrite Hrows.
Qed.

(** C6 on the code. Over twenty-five stored pipes, [getPipes] for page 2
    with limit 10 returns the ten rows of the second page but reports
    [totalCount = 1] and [totalPages = 1]: [count] yields the id of the
    first stored row, not the number of rows (25, hence 3 pages). *)
Theorem getPipes_reports_first_id_as_total :
  length (pipes twenty_five_pipes) = 25%nat ∧
  ∃ listing,
    fst (@PipeService.getPipes sample_platform (page_of 2 10) twenty_five_pipes)
    = inr listing ∧
    pp_pipes listing
    = inl (numbered_pipe <$> [15; 14; 13; 12; 11; 10; 9; 8; 7; 6]) ∧
    pp_totalCount listing = 1 ∧
    pp_totalPages listing = Num 1.
Proof. split; [done|]. eexists. vm_compute. repeat split. Qed.

(** Grouping keeps one entry per pipe id, in the order in which the ids
    first arrive. *)
Lemma first_occurrences_snoc ids x :
  first_occurrences (ids ++ [x])
  = if bool_decide (x ∈ ids) then first_occurrences ids
    else first_occurrences ids ++ [x].
Proof.
  unfold first_occurrences. rewrite reverse_snoc. simpl.
  case_bool_decide as Hx; destruct (decide_rel _ x (reverse ids)) as [Hin|Hin].
  - done.
  - by rewrite elem_of_reverse in Hin.
  - by rewrite elem_of_reverse in Hin.
  - by rewrite reverse_cons.
Qed.

Lemma JsMap_set_keys {V} k (v : V) (m : JsMap.t V) :
  fst <$> JsMap.set k v m
  = if bool_decide (k ∈ fst <$> m) then fst <$> m else (fst <$> m) ++ [k].
Proof.
  unfold JsMap.set, JsMap.has. case_bool_decide.
  - rewrite <- list_fmap_compose. apply list_fmap_ext. intros i [k' v'] _. simpl.
    by case_bool_decide; simplify_eq/=.
  - by rewrite fmap_app.
Qed.

Lemma JsMap_get_present {V} k (m : JsMap.t V) :
  k ∈ fst <$> m → is_Some (JsMap.get k m).
Proof.
  intros Hk. apply list_elem_of_fmap in Hk as ([k' v] & -> & Hin).
  unfold JsMap.get. destruct (head _) as [e|] eqn:E; [by eexists|].
  pose proof (proj1 (head_filter_None _ _) E _ Hin) as Hne. by destruct Hne.
Qed.

Lemma groupRow_keys pipeMap row :
  fst <$> PipeRepository.groupRow pipeMap row
  = if bool_decide (jr_id row ∈ fst <$> pipeMap) then fst <$> pipeMap
    else (fst <$> pipeMap) ++ [jr_id row].
Proof.
  unfold PipeRepository.groupRow.
  set (fresh := {| pwv_id := jr_id row; pwv_name := jr_name row;
                   pwv_description := jr_description row;
                   pwv_createdAt := jr_createdAt row;
                   pwv_updatedAt := jr_updatedAt row; pwv_versions := [] |}).
  set (m1 := if negb (JsMap.has (jr_id row) pipeMap)
             then JsMap.set (jr_id row) fresh pipeMap else pipeMap).
  assert (fst <$> m1
          = if bool_decide (jr_id row ∈ fst <$> pipeMap) then fst <$> pipeMap
            else (fst <$> pipeMap) ++ [jr_id row]) as Hm1.
  { subst m1. unfold JsMap.has. case_bool_decide as Hin; simpl; [done|].
    by rewrite JsMap_set_keys, bool_decide_eq_false_2. }
  assert (jr_id row ∈ fst <$> m1) as Hin1.
  { rewrite Hm1. case_bool_decide; [done|]. apply elem_of_app. right. set_solver. }
  destruct (JsMap_get_present _ _ Hin1) as [pipe ->].
  destruct (truthy_opt_number _); [|done].
  by rewrite JsMap_set_keys, bool_decide_eq_true_2.
Qed.

Lemma grouping_keeps_arrival_order rows :
  fst <$> foldl PipeRepository.groupRow [] rows = first_occurrences (jr_id <$> rows).
Proof.
  induction rows as [|row rows IH] using rev_ind; [done|].
  rewrite foldl_snoc, groupRow_keys, fmap_app, IH. simpl.
  rewrite first_occurrences_snoc.
  assert (jr_id row ∈ first_occurrences (jr_id <$> rows)
          ↔ jr_id row ∈ jr_id <$> rows) as Hiff.
  { unfold first_occurrences.
    by rewrite elem_of_reverse, elem_of_remove_dups, elem_of_reverse. }
  do 2 case_bool_decide; tauto.
Qed.

(** What the paging of [findManyWithVersions] does in general. On the
    first page, as long as the over-fetch of [limit * 10] rows covers all
    joined rows, the result is the first [limit] entries of the grouped
    list. *)
Lemma findManyWithVersions_first_page `{Platform} options w limit :
  default 1 (pq_page options) = 1 →
  default 10 (pq_limit options) = limit →
  0 ≤ limit →
  Z.of_nat (length (joined_rows (pq_search options) w)) ≤ limit * 10 →
  PipeRepository.findManyWithVersions options w
  = (inr (js_slice (grouped_pipes (pq_search options) w) 0 limit), w).
Proof.
  intros Hpage Hlimit Hpos Hrows.
  unfold PipeRepository.findManyWithVersions, Db.limitOffset, grouped_pipes.
  unfold_m. rewrite Hpage, Hlimit. fold (joined_rows (pq_search options) w).
  assert ((limit * 10 <? 0) = false) as -> by lia.
  assert (((1 - 1) * limit * 10 <? 0) = false) as -> by lia.
  replace ((1 - 1) * limit * 10) with 0 by lia.
  change (Z.to_nat 0) with 0%nat. rewrite drop_0.
  rewrite firstn_all2; [by replace ((1 - 1) * limit + limit) with limit by lia|].
  rewrite (Permutation_length (merge_sort_Permutation joined_desc _)). lia.
Qed.

(** On any later page the rows are fetched from offset
    [(page - 1) * limit * 10] on; when there are no more joined rows than
    that, nothing is fetched and the page is empty, whatever the grouped
    list holds. *)
Lemma findManyWithVersions_later_page `{Platform} options w page limit :
  default 1 (pq_page options) = page →
  default 10 (pq_limit options) = limit →
  1 < page → 0 ≤ limit →
  Z.of_nat (length (joined_rows (pq_search options) w)) ≤ (page - 1) * limit * 10 →
  PipeRepository.findManyWithVersions options w = (inr [], w).
Proof.
  intros Hpage Hlimit Hpg Hpos Hrows.
  unfold PipeRepository.findManyWithVersions, Db.limitOffset.
  unfold_m. rewrite Hpage, Hlimit. fold (joined_rows (pq_search options) w).
  assert ((limit * 10 <? 0) = false) as -> by lia.
  assert (((page - 1) * limit * 10 <? 0) = false) as -> by nia.
  rewrite drop_ge.
  - rewrite take_nil. simpl. unfold js_slice. by rewrite drop_nil, take_nil.
  - rewrite (Permutation_length (merge_sort_Permutation joined_desc _)). lia.
Qed.

(** C9 on the code. Over twenty-five pipes the grouped list has
    twenty-five entries, and its second and third slices of ten are not
    empty; [findManyWithVersions] returns the first ten pipes for page 1
    and nothing for pages 2 and 3, because the rows are fetched with an
    offset of [(page - 1) * limit * 10] before the grouped list is sliced
    again by [(page - 1) * limit]. *)
Theorem findManyWithVersions_pages_do_not_partition :
  length (@grouped_pipes sample_platform None twenty_five_pipes) = 25%nat ∧
  pwv_id <$> js_slice (@grouped_pipes sample_platform None twenty_five_pipes) 10 20
  = [15; 14; 13; 12; 11; 10; 9; 8; 7; 6] ∧
  (∃ first,
     fst (@PipeRepository.findManyWithVersions sample_platform (page_of 1 10)
            twenty_five_pipes) = inr first ∧
     pwv_id <$> first = [25; 24; 23; 22; 21; 20; 19; 18; 17; 16]) ∧
  fst (@PipeRepository.findManyWithVersions sample_platform (page_of 2 10)
         twenty_five_pipes) = inr [] ∧
  fst (@PipeRepository.findManyWithVersions sample_platform (page_of 3 10)
         twenty_five_pipes) = inr [].
Proof.
  split_and!; [by vm_compute|by vm_compute| |by vm_compute..].
  eexists. by vm_compute.
Qed.

(** * Further properties of the code *)

(** ** Registration, step by step *)

Lemma createPipe_upsert d :
  PipeService.createPipe d
  = upsert (cp_name d) (cp_description d) (cp_version d) EmptyString (cp_envSchema d).
Proof. done. Qed.


(** What storing a file does when it goes through, and when it does. *)
Lemma storeFile_fulfilled `{Platform} file pipeName version w sf w' :
  FileStorageService.storeFile file pipeName version w = (inr sf, w') →
  ∃ data,
    mf_file file = Delivers data ∧
    fs_fault w (FileStorageService.getFilePath (archiveName pipeName version)) = false ∧
    w' = set_files (insert (FileStorageService.getFilePath
                              (archiveName pipeName version)) data) w ∧
    sf = {| sf_fileName := archiveName pipeName version;
            sf_filePath := FileStorageService.getFilePath (archiveName pipeName version);
            sf_url := FileStorageService.baseUrl +:+ "/files/"
                      +:+ archiveName pipeName version;
            sf_size := Z.of_nat (length data) |}.
Proof.
  unfold FileStorageService.storeFile, Fs.pipeline, Fs.stat_size,
    FileStorageService.getFilePath, archiveName.
  unfold_m. simpl.
  destruct (fs_fault w _) eqn:Hfault; [done|].
  destruct (mf_file file) as [data|sent]; simpl; [|done].
  rewrite lookup_insert_eq. intros [= <- <-]. by exists data.
Qed.


Lemma head_None_nil {A} (l : list A) : head l = None → l = [].
Proof. by destruct l. Qed.

Lemma insertPipe_frame d w r w' :
  Db.insertPipe d w = (r, w') →
  fs_fault w' = fs_fault w ∧
  (∀ p, r = inr p → Pipe.id p = pipes_id_seq w).
Proof.
  unfold Db.insertPipe. case_bool_decide; intros ?; simplify_eq/=; split; try done.
  by intros ? [= <-].
Qed.

Lemma createVersion_frame dto w r w' :
  VersionService.createVersion dto w = (r, w') → fs_fault w' = fs_fault w.
Proof.
  unfold VersionService.createVersion, PipeRepository.findById,
    VersionRepository.create, Db.insertVersion.
  unfold_m. destruct (head _); [|by intros [= _ <-]].
  simpl. repeat case_bool_decide; by intros [= _ <-].
Qed.

(** A fulfilled registration, in full. *)
Lemma upsert_fulfilled name description version assetUrl envSchema w p v w' :
  upsert name description version assetUrl envSchema w = (inr (p, v), w') →
  files w' = files w ∧ fs_fault w' = fs_fault w ∧
  versions w' = versions w ++ [v] ∧
  Version.pipeId v = Pipe.id p ∧
  Version.versionNumber v = version ∧
  Version.assetUrl v = assetUrl ∧
  Version.envSchema v = envSchema ∧
  (version ∉ Version.versionNumber <$> versions w) ∧
  Pipe.name p = name ∧
  head (filter (λ q, Pipe.name q = name) (pipes w')) = Some p ∧
  match head (filter (λ q, Pipe.name q = name) (pipes w)) with
  | Some q => p = q ∧ pipes w' = pipes w
  | None => pipes w' = pipes w ++ [p] ∧ Pipe.description p = description ∧
            Pipe.id p = pipes_id_seq w
  end.
Proof.
  unfold upsert. unfold bind at 1. rewrite getPipeByName_eq.
  destruct (head _) as [q|] eqn:Hq.
  - intros Hrun.
    apply bind_inv in Hrun as [(e & _ & ?)|(v' & w1 & Hcv & Hret)]; [done|].
    unfold ret in Hret. simplify_eq.
    pose proof (createVersion_frame _ _ _ _ Hcv) as Hff.
    apply createVersion_inv in Hcv
      as (Hp & Hf & [(? & ? & _)|(v' & ? & Hvs & ? & Hvn & ? & ? & Hfresh)]); [done|].
    simplify_eq/=. rewrite Hp.
    split_and!; try done. by apply head_filter_Some in Hq as [_ ?].
  - unfold bind at 1 2, newDate at 1 2. intros Hrun.
    apply bind_inv in Hrun as [(e & _ & ?)|(p' & w1 & Hins & Hrun)]; [done|].
    pose proof (insertPipe_frame _ _ _ _ Hins) as [Hff1 Hid].
    apply insertPipe_inv in Hins
      as (Hv1 & Hf1 & [(? & ? & _)|(p'' & ? & Hps & Hname & Hdesc & _)]); [done|].
    simplify_eq/=.
    apply bind_inv in Hrun as [(e & _ & ?)|(v' & w2 & Hcv & Hret)]; [done|].
    unfold ret in Hret. simplify_eq.
    pose proof (createVersion_frame _ _ _ _ Hcv) as Hff2.
    apply createVersion_inv in Hcv
      as (Hp2 & Hf2 & [(? & ? & _)|(v' & ? & Hvs & ? & Hvn & ? & ? & Hfresh)]); [done|].
    simplify_eq/=. rewrite Hv1 in Hfresh. rewrite Hp2, Hps, Hvs, Hv1.
    split_and!; try done; try congruence.
    + rewrite filter_app, (head_None_nil _ Hq). simpl.
      rewrite filter_cons_True by done. done.
    + by apply Hid.
Qed.


Lemma head_filter_unique {A} (P : A → Prop) `{∀ x, Decision (P x)} (l : list A) v :
  v ∈ l → P v → (∀ x, x ∈ l → P x → x = v) → head (filter P l) = Some v.
Proof.
  intros Hin HP Huniq. destruct (head (filter P l)) as [x|] eqn:E.
  - apply head_filter_Some in E as [? ?]. f_equal. by apply Huniq.
  - pose proof (proj1 (head_filter_None _ _) E v Hin). done.
Qed.

Lemma elem_of_orderByDesc {A} (key : A → Z) (rows : list A) x :
  x ∈ Db.orderByDesc key rows ↔ x ∈ rows.
Proof. unfold Db.orderByDesc. by rewrite merge_sort_Permutation. Qed.

(** Asking for the version number just registered selects the new row:
    no other row carries that number. *)
Lemma selectVersion_registered p v version w w' :
  version ≠ EmptyString →
  p ∈ pipes w' →
  versions w' = versions w ++ [v] →
  Version.pipeId v = Pipe.id p →
  Version.versionNumber v = version →
  version ∉ Version.versionNumber <$> versions w →
  PipeService.selectVersion p (Some version) w' = (inr (Some v), w').
Proof.
  intros Hne Hp Hvs Hid Hvn Hfresh.
  rewrite (selectVersion_eq _ _ _ Hp). simpl.
  assert (truthy_string version = true) as ->.
  { destruct (truthy_string version) eqn:E; [done|].
    by apply truthy_string_false in E. }
  do 2 f_equal. apply head_filter_unique.
  - apply elem_of_orderByDesc, list_elem_of_filter. split; [done|].
    rewrite Hvs. apply elem_of_app. right. set_solver.
  - by rewrite Hvn.
  - intros x Hx [= Hxn]. apply elem_of_orderByDesc in Hx.
    apply list_elem_of_filter in Hx as [_ Hx].
    rewrite Hvs in Hx. apply elem_of_app in Hx as [Hold|Hnew].
    2: { by apply list_elem_of_singleton in Hnew. }
    destruct Hfresh. rewrite <- Hxn. apply list_elem_of_fmap. eauto.
Qed.



Lemma truthy_string_ne s : s ≠ EmptyString → truthy_string s = true.
Proof.
  intros Hne. destruct (truthy_string s) eqn:E; [done|].
  by apply truthy_string_false in E.
Qed.

(** ** Upload, then download *)



(** X2. A version registered through [createPipe], which takes no
    archive, cannot be downloaded: asking for it by name and number yields
    null, and the endpoint answers 404, whatever the archive store holds
    under that version's archive name. *)
Theorem createPipe_not_downloadable `{Platform} d w p v w' :
  cp_name d ≠ EmptyString →
  cp_version d ≠ EmptyString →
  PipeService.createPipe d w = (inr (p, v), w') →
  Version.assetUrl v = EmptyString ∧
  PipeService.getPipeForDownload (cp_name d) (Some (cp_version d)) w'
  = (inr None, w') ∧
  fst (PipeController.downloadPipe
         {| dp_name := cp_name d; dp_version := Some (cp_version d) |} w')
  = inr {| rp_status := 404; rp_headers := [];
           rp_payload := JsonError ("Pipe '" +:+ cp_name d +:+ "' version '"
                                    +:+ cp_version d
                                    +:+ "' not found or no asset available") |}.
Proof.
  intros Hname Hver Hrun. rewrite createPipe_upsert in Hrun.
  apply upsert_fulfilled in Hrun
    as (_ & _ & Hvs & Hid & Hvn & Hurl & _ & Hfresh & Hpn & Hhead & _).
  assert (fst (PipeService.getPipeByName (cp_name d) w') = inr (Some p)) as Hp
    by (by rewrite getPipeByName_eq, Hhead).
  pose proof (getPipeByName_inv _ _ _ Hp) as (_ & Hin & _).
  pose proof (selectVersion_registered _ _ _ _ _ Hver Hin Hvs Hid Hvn Hfresh) as Hsel.
  assert (PipeService.getPipeForDownload (cp_name d) (Some (cp_version d)) w'
          = (inr None, w')) as Hdl.
  { rewrite (getPipeForDownload_selected _ _ _ p v Hp) by (by rewrite Hsel).
    by rewrite Hurl. }
  split_and!; [done..|].
  unfold PipeController.downloadPipe, try_catch. simpl.
  rewrite (truthy_string_ne _ Hname). simpl. unfold bind. rewrite Hdl. simpl.
  by rewrite (truthy_string_ne _ Hver).
Qed.

Lemma createPipe_not_downloadable_witness :
  Version.assetUrl (Version.mk 2 1 "9.9.9" EmptyString 1004 1005 "{}") = EmptyString ∧
  @PipeService.getPipeForDownload sample_platform "acme" (Some "9.9.9") acme_bare_world
  = (inr None, acme_bare_world) ∧
  fst (@PipeController.downloadPipe sample_platform acme_999 acme_bare_world)
  = inr {| rp_status := 404; rp_headers := [];
           rp_payload := JsonError ("Pipe '" +:+ "acme" +:+ "' version '"
                                    +:+ "9.9.9"
                                    +:+ "' not found or no asset available") |}.
Proof.
  apply (@createPipe_not_downloadable sample_platform
           {| cp_name := "acme"; cp_description := None;
              cp_version := "9.9.9"; cp_envSchema := "{}" |}
           acme_world acme_pipe
           (Version.mk 2 1 "9.9.9" EmptyString 1004 1005 "{}") acme_bare_world).
  - discriminate.
  - discriminate.
  - vm_compute. reflexivity.
Defined.

(** ** What a rejected registration leaves behind *)







(** ** Listing the versions of a pipe *)

(** X6. For an existing pipe, [getVersionsByPipeId] returns exactly the
    rows of [versions] that carry its id (each as often as it is stored),
    newest first, and [getLatestVersionByPipeId] returns the head of that
    list: null precisely when the pipe has no version. Neither changes
    the world. *)
Theorem getVersionsByPipeId_newest_first pipeId w :
  pipeId ∈ Pipe.id <$> pipes w →
  ∃ listed,
    VersionService.getVersionsByPipeId pipeId w = (inr listed, w) ∧
    listed ≡ₚ filter (λ v, Version.pipeId v = pipeId) (versions w) ∧
    StronglySorted (λ a b, Version.createdAt b ≤ Version.createdAt a) listed ∧
    VersionService.getLatestVersionByPipeId pipeId w = (inr (head listed), w) ∧
    (head listed = None ↔ pipeId ∉ Version.pipeId <$> versions w).
Proof.
  intros Hin. apply list_elem_of_fmap in Hin as (p & -> & Hp).
  destruct (findById_present p w Hp) as [q Hq].
  exists (Db.orderByDesc Version.createdAt
            (filter (λ v, Version.pipeId v = Pipe.id p) (versions w))).
  unfold VersionService.getVersionsByPipeId, VersionService.getLatestVersionByPipeId.
  unfold bind. rewrite Hq. split_and!.
  - done.
  - apply merge_sort_Permutation.
  - apply (StronglySorted_merge_sort (desc_by Version.createdAt)).
  - apply findLatestByPipeId_eq.
  - split.
    + intros Hnone Hhas. apply list_elem_of_fmap in Hhas as (v & Hid & Hv).
      assert (v ∈ filter (λ v, Version.pipeId v = Pipe.id p) (versions w)) as Hv'
        by (by apply list_elem_of_filter).
      destruct (head_orderByDesc_is_Some Version.createdAt _ _ Hv') as [? Hsome].
      congruence.
    + intros Hnone. destruct (head _) as [v|] eqn:E; [|done].
      apply head_orderByDesc in E as [Hv _].
      apply list_elem_of_filter in Hv as [Hid Hv]. destruct Hnone.
      apply list_elem_of_fmap. eauto.
Qed.

Lemma getVersionsByPipeId_newest_first_witness :
  ∃ listed,
    VersionService.getVersionsByPipeId 1 acme_two_world = (inr listed, acme_two_world) ∧
    listed ≡ₚ filter (λ v, Version.pipeId v = 1) (versions acme_two_world) ∧
    StronglySorted (λ a b, Version.createdAt b ≤ Version.createdAt a) listed ∧
    VersionService.getLatestVersionByPipeId 1 acme_two_world
    = (inr (head listed), acme_two_world) ∧
    (head listed = None ↔ 1 ∉ Version.pipeId <$> versions acme_two_world).
Proof.
  apply (getVersionsByPipeId_newest_first 1 acme_two_world).
  apply (bool_decide_unpack _). vm_compute. exact I.
Defined.

(** ** Archive store *)

Section ArchiveStoreMore.
Context `{Platform}.

Lemma deleteFile_eq fileName w :
  FileStorageService.deleteFile fileName w
  = match files w !! FileStorageService.getFilePath fileName with
    | Some _ =>
        if fs_fault w (FileStorageService.getFilePath fileName) then (inr false, w)
        else (inr true,
              set_files (delete (FileStorageService.getFilePath fileName)) w)
    | None => (inr false, w)
    end.
Proof.
  unfold FileStorageService.deleteFile, Fs.unlink, FileStorageService.getFilePath.
  unfold_m. simpl.
  destruct (files w !! _); [by destruct (fs_fault w _)|done].
Qed.

End ArchiveStoreMore.

(** X7. A stored upload is there: after a fulfilled [storeFile] the
    archive [{pipeName}-{version}.tar] exists, holds the uploaded bytes
    (replacing whatever was stored under that name), the reported size is
    their number and the URL is the base URL followed by [/files/] and
    the archive name; no other path of the store is touched. *)
Theorem storeFile_then_fileExists `{Platform} file pipeName version w sf w' :
  FileStorageService.storeFile file pipeName version w = (inr sf, w') →
  sf_fileName sf = archiveName pipeName version ∧
  sf_url sf = FileStorageService.baseUrl +:+ "/files/" +:+ archiveName pipeName version ∧
  FileStorageService.fileExists (sf_fileName sf) w' = (inr true, w') ∧
  (∃ data, mf_file file = Delivers data ∧
           files w' !! sf_filePath sf = Some data ∧
           sf_size sf = Z.of_nat (length data)) ∧
  (∀ path, path ≠ sf_filePath sf → files w' !! path = files w !! path).
Proof.
  intros Hst. apply storeFile_fulfilled in Hst as (data & Hdata & _ & -> & ->). simpl.
  split_and!; [done..| | |].
  - rewrite fileExists_inv. simpl. unfold FileStorageService.getFilePath.
    by rewrite lookup_insert_eq.
  - exists data. by rewrite lookup_insert_eq.
  - intros path Hne. by rewrite lookup_insert_ne.
Qed.

Lemma storeFile_then_fileExists_witness :
  sf_fileName {| sf_fileName := "acme-1.0.0.tar";
                 sf_filePath := "./uploads/acme-1.0.0.tar";
                 sf_url := "http://localhost:3000/files/acme-1.0.0.tar";
                 sf_size := 3 |}
  = archiveName "acme" "1.0.0" ∧
  sf_url {| sf_fileName := "acme-1.0.0.tar";
            sf_filePath := "./uploads/acme-1.0.0.tar";
            sf_url := "http://localhost:3000/files/acme-1.0.0.tar";
            sf_size := 3 |}
  = @FileStorageService.baseUrl sample_platform +:+ "/files/"
    +:+ archiveName "acme" "1.0.0" ∧
  @FileStorageService.fileExists sample_platform
    (sf_fileName {| sf_fileName := "acme-1.0.0.tar";
                    sf_filePath := "./uploads/acme-1.0.0.tar";
                    sf_url := "http://localhost:3000/files/acme-1.0.0.tar";
                    sf_size := 3 |})
    (set_files (insert "./uploads/acme-1.0.0.tar" [Byte.x01; Byte.x02; Byte.x03])
       fresh_world)
  = (inr true,
     set_files (insert "./uploads/acme-1.0.0.tar" [Byte.x01; Byte.x02; Byte.x03])
       fresh_world) ∧
  (∃ data, mf_file (cpf_file acme_upload) = Delivers data ∧
           files (set_files (insert "./uploads/acme-1.0.0.tar"
                               [Byte.x01; Byte.x02; Byte.x03]) fresh_world)
             !! sf_filePath {| sf_fileName := "acme-1.0.0.tar";
                               sf_filePath := "./uploads/acme-1.0.0.tar";
                               sf_url := "http://localhost:3000/files/acme-1.0.0.tar";
                               sf_size := 3 |}
           = Some data ∧
           sf_size {| sf_fileName := "acme-1.0.0.tar";
                      sf_filePath := "./uploads/acme-1.0.0.tar";
                      sf_url := "http://localhost:3000/files/acme-1.0.0.tar";
                      sf_size := 3 |}
           = Z.of_nat (length data)) ∧
  (∀ path, path ≠ sf_filePath {| sf_fileName := "acme-1.0.0.tar";
                                 sf_filePath := "./uploads/acme-1.0.0.tar";
                                 sf_url := "http://localhost:3000/files/acme-1.0.0.tar";
                                 sf_size := 3 |} →
           files (set_files (insert "./uploads/acme-1.0.0.tar"
                               [Byte.x01; Byte.x02; Byte.x03]) fresh_world) !! path
           = files fresh_world !! path).
Proof.
  apply (@storeFile_then_fileExists sample_platform (cpf_file acme_upload)
           "acme" "1.0.0" fresh_world).
  vm_compute. reflexivity.
Defined.

(** X8. [deleteFile] never throws. It answers true exactly when the file
    is in the store and can be removed; then the file is gone (and
    [fileExists] says so) while every other file stays. Otherwise it
    answers false and the world is as it was: a missing file is not an
    error. *)
Theorem deleteFile_contract `{Platform} fileName w :
  ∃ removed w',
    FileStorageService.deleteFile fileName w = (inr removed, w') ∧
    (removed = true ↔
       is_Some (files w !! FileStorageService.getFilePath fileName) ∧
       fs_fault w (FileStorageService.getFilePath fileName) = false) ∧
    (removed = true →
       FileStorageService.fileExists fileName w' = (inr false, w') ∧
       (∀ path, path ≠ FileStorageService.getFilePath fileName →
                files w' !! path = files w !! path) ∧
       same_db w w') ∧
    (removed = false → w' = w).
Proof.
  rewrite deleteFile_eq.
  destruct (files w !! _) as [data|] eqn:Hfile;
    [destruct (fs_fault w _) eqn:Hfault|]; eexists _, _; (split; [done|]).
  - split_and!; [|done..]. split; [done|]. by intros [_ ?].
  - split_and!; [by split; [eauto|] | |done]. intros _. split_and!.
    + rewrite fileExists_inv. simpl. unfold FileStorageService.getFilePath.
      by rewrite lookup_delete_eq.
    + intros path Hne. simpl. by rewrite lookup_delete_ne.
    + done.
  - split_and!; [|done..]. split; [done|]. by intros [[? ?] _].
Qed.

(** ** Deleting and updating rows *)

Lemma filter_all {A} (P : A → Prop) `{∀ x, Decision (P x)} (l : list A) :
  (∀ x, x ∈ l → P x) → filter P l = l.
Proof.
  induction l as [|x l IH]; [done|]. intros Hall.
  rewrite filter_cons_True by (apply Hall; left).
  f_equal. apply IH. intros y Hy. apply Hall. by right.
Qed.

Lemma filter_none {A} (P : A → Prop) `{∀ x, Decision (P x)} (l : list A) :
  (∀ x, x ∈ l → ¬ P x) → filter P l = [].
Proof.
  induction l as [|x l IH]; [done|]. intros Hall.
  rewrite filter_cons_False by (apply Hall; left).
  apply IH. intros y Hy. apply Hall. by right.
Qed.

Lemma filter_id_nil_iff id (ps : list Pipe.t) :
  filter (λ p, Pipe.id p = id) ps = [] ↔ id ∉ Pipe.id <$> ps.
Proof.
  split.
  - intros Hnil Hin. apply list_elem_of_fmap in Hin as (p & -> & Hp).
    by apply (filter_nil_not_elem_of _ _ p Hnil).
  - intros Hnot. apply filter_none. intros p Hp Hid. apply Hnot.
    apply list_elem_of_fmap. eauto.
Qed.

Lemma deletePipe_tables `{Driver} id w :
  pipes (snd (PipeService.deletePipe id w)) = filter (λ p, Pipe.id p ≠ id) (pipes w) ∧
  versions (snd (PipeService.deletePipe id w))
  = (if bool_decide (id ∈ Pipe.id <$> pipes w)
     then filter (λ v, Version.pipeId v ≠ id) (versions w) else versions w) ∧
  files (snd (PipeService.deletePipe id w)) = files w ∧
  fulfilled (fst (PipeService.deletePipe id w)).
Proof.
  unfold PipeService.deletePipe, PipeRepository.delete, Db.deletePipe. unfold_m.
  case_bool_decide as Hnone; simpl.
  - apply filter_id_nil_iff in Hnone as Hnot.
    rewrite bool_decide_eq_false_2 by done.
    split_and!; try done. symmetry. apply filter_all.
    intros p Hp Hid. apply Hnot, list_elem_of_fmap. eauto.
  - rewrite bool_decide_eq_true_2; [done|].
    destruct (decide (id ∈ Pipe.id <$> pipes w)) as [|Hnot]; [done|].
    by apply filter_id_nil_iff in Hnot.
Qed.

(** X9. Deleting a pipe that exists removes its row and, with it, every
    version that references it: afterwards the pipe cannot be fetched,
    no version of it is left and the lookups by pipe fail with "Pipe not
    found". Other pipes and their versions stay, and so do the archives:
    the files of the deleted versions remain in the store. *)
Theorem deletePipe_cascades `{Driver} id w :
  id ∈ Pipe.id <$> pipes w →
  let w' := snd (PipeService.deletePipe id w) in
  fst (PipeService.getPipeById id w') = inr None ∧
  VersionRepository.findByPipeId id w' = (inr [], w') ∧
  VersionService.getVersionsByPipeId id w' = (inl (Error "Pipe not found"), w') ∧
  VersionService.getLatestVersionByPipeId id w' = (inl (Error "Pipe not found"), w') ∧
  (∀ p, Pipe.id p ≠ id → p ∈ pipes w' ↔ p ∈ pipes w) ∧
  (∀ v, Version.pipeId v ≠ id → v ∈ versions w' ↔ v ∈ versions w) ∧
  files w' = files w.
Proof.
  intros Hin w'. subst w'.
  destruct (deletePipe_tables id w) as (Hps & Hvs & Hf & _).
  rewrite bool_decide_eq_true_2 in Hvs by done.
  set (w' := snd (PipeService.deletePipe id w)) in *.
  assert (head (filter (λ p, Pipe.id p = id) (pipes w')) = None) as Hgone.
  { apply (proj2 (head_filter_None _ _)). intros p Hp Hid.
    rewrite Hps in Hp. by apply list_elem_of_filter in Hp as [? _]. }
  assert (filter (λ v, Version.pipeId v = id) (versions w') = []) as Hnov.
  { apply filter_none. intros v Hv Hid.
    rewrite Hvs in Hv. by apply list_elem_of_filter in Hv as [? _]. }
  split_and!.
  - unfold PipeService.getPipeById. by rewrite findById_eq, Hgone.
  - unfold VersionRepository.findByPipeId, gets. by rewrite Hnov.
  - unfold VersionService.getVersionsByPipeId, bind. by rewrite findById_eq, Hgone.
  - unfold VersionService.getLatestVersionByPipeId, bind. by rewrite findById_eq, Hgone.
  - intros p Hne. rewrite Hps, list_elem_of_filter. tauto.
  - intros v Hne. rewrite Hvs, list_elem_of_filter. tauto.
  - done.
Qed.

Lemma deletePipe_cascades_witness :
  let w' := snd (@PipeService.deletePipe {| row_list_length := Z.of_nat |} 1
                   acme_two_world) in
  fst (PipeService.getPipeById 1 w') = inr None ∧
  VersionRepository.findByPipeId 1 w' = (inr [], w') ∧
  VersionService.getVersionsByPipeId 1 w' = (inl (Error "Pipe not found"), w') ∧
  VersionService.getLatestVersionByPipeId 1 w' = (inl (Error "Pipe not found"), w') ∧
  (∀ p, Pipe.id p ≠ 1 → p ∈ pipes w' ↔ p ∈ pipes acme_two_world) ∧
  (∀ v, Version.pipeId v ≠ 1 → v ∈ versions w' ↔ v ∈ versions acme_two_world) ∧
  files w' = files acme_two_world.
Proof.
  apply (@deletePipe_cascades {| row_list_length := Z.of_nat |} 1 acme_two_world).
  apply (bool_decide_unpack _). vm_compute. exact I.
Defined.
Lemma filter_moved_same {A} (key : A → Z) (set : A → A) id (l : list A) :
  (∀ x, key (set x) = key x) →
  filter (λ x, key x = id)
    (filter (λ x, key x ≠ id) l ++ (set <$> filter (λ x, key x = id) l))
  = set <$> filter (λ x, key x = id) l.
Proof.
  intros Hkey. rewrite filter_app.
  rewrite (filter_none (λ x, key x = id) (filter (λ x, key x ≠ id) l)).
  2: { intros x Hx. by apply list_elem_of_filter in Hx as [? _]. }
  simpl. apply filter_all. intros x Hx.
  apply list_elem_of_fmap in Hx as (y & -> & Hy).
  apply list_elem_of_filter in Hy as [? _]. by rewrite Hkey.
Qed.






Lemma updateVersion_eq id updateData w :
  VersionService.updateVersion id updateData w
  = match Db.updateVersion id
            (VersionRepository.applyUpdate updateData (clock w (clock_reads w)))
            (set_clock_reads (S (clock_reads w)) w) with
    | (inr rows, w') => (inr (head rows), w')
    | (inl e, w') => (inl e, w')
    end.
Proof.
  unfold VersionService.updateVersion, VersionRepository.update. unfold_m. simpl.
  destruct (Db.updateVersion _ _ _) as [[e|rows] w']; [done|].
  by destruct (head rows).
Qed.



(** X12. Whatever [updateVersion] is asked to change, a rejected call
    changes no row; an accepted one returns a row with the requested id,
    and fetching the version by id afterwards returns that same row (null
    when no version has the id). The pipes table is never touched. *)
Theorem updateVersion_then_getVersionById id updateData w :
  let r := VersionService.updateVersion id updateData w in
  pipes (snd r) = pipes w ∧
  (∀ e, fst r = inl e → versions (snd r) = versions w) ∧
  (∀ o, fst r = inr o →
        fst (VersionService.getVersionById id (snd r)) = inr o ∧
        (o = None ↔ id ∉ Version.id <$> versions w) ∧
        (∀ v', o = Some v' →
               Version.id v' = id ∧
               Version.updatedAt v' = clock w (clock_reads w) ∧
               Version.pipeId v' ∈ Pipe.id <$> pipes w)).
Proof.
  intros r. subst r. rewrite updateVersion_eq. unfold Db.updateVersion. simpl.
  set (set := VersionRepository.applyUpdate updateData (clock w (clock_reads w))).
  destruct (filter (λ v, Version.id v = id) (versions w)) as [|v rest] eqn:E.
  { simpl. split_and!; [done..|]. intros o [= <-]. split_and!.
    - unfold VersionService.getVersionById, VersionRepository.findById, gets.
      simpl. by rewrite E.
    - split; [intros _|done]. intros Hin.
      apply list_elem_of_fmap in Hin as (v & -> & Hv).
      by apply (filter_nil_not_elem_of _ _ v E).
    - done. }
  rewrite bool_decide_eq_false_2 by done.
  case_bool_decide as Huniq; [|by split_and!].
  case_bool_decide as Hfk; [|by split_and!].
  simpl. split_and!; [done..|]. intros o [= <-].
  assert (Version.id v = id) as Hvid.
  { assert (v ∈ filter (λ v, Version.id v = id) (versions w)) as Hin by (rewrite E; left).
    by apply list_elem_of_filter in Hin as [? _]. }
  split_and!.
  - unfold VersionService.getVersionById, VersionRepository.findById, gets. simpl.
    pose proof (filter_moved_same Version.id set id (versions w)) as Hmoved.
    rewrite E in Hmoved. simpl in Hmoved. by rewrite Hmoved.
  - split; [done|]. intros Hnot. destruct Hnot. apply list_elem_of_fmap. exists v.
    split; [done|].
    assert (v ∈ filter (λ v, Version.id v = id) (versions w)) as Hin by (rewrite E; left).
    by apply list_elem_of_filter in Hin as [_ ?].
  - intros v' [= <-]. split_and!; [done..|].
    rewrite Forall_forall in Hfk. apply Hfk. left.
Qed.

(** ** HTTP surface *)




Lemma createVersion_present dto w :
  cv_pipeId dto ∈ Pipe.id <$> pipes w →
  (∃ c w', VersionService.createVersion dto w = (inl (UniqueViolation c), w')) ∨
  (∃ v w', VersionService.createVersion dto w = (inr v, w')).
Proof.
  intros Hin. apply list_elem_of_fmap in Hin as (p & Hid & Hp).
  destruct (findById_present p w Hp) as [q Hq].
  unfold VersionService.createVersion, VersionRepository.create, bind.
  rewrite Hid, Hq. unfold newDate, Db.insertVersion. simpl.
  repeat case_bool_decide; eauto.
  exfalso. match goal with Hfk : ¬ _ |- _ => apply Hfk end.
  rewrite Hid. apply list_elem_of_fmap. eauto.
Qed.

(** The four ways [POST /versions] can go. *)
Lemma createVersion_controller_cases versionData w :
  let run := VersionController.createVersion versionData w in
  let wellFormed := cv_pipeId versionData ≠ 0
                    ∧ cv_versionNumber versionData ≠ EmptyString
                    ∧ cv_assetUrl versionData ≠ EmptyString in
  (¬ wellFormed ∧
   run = (inr {| js_status := 400;
                 js_body := ErrorJson
                   "Missing required fields: pipeId, versionNumber, assetUrl" |}, w)) ∨
  (wellFormed ∧ (cv_pipeId versionData ∉ Pipe.id <$> pipes w) ∧
   run = (inr {| js_status := 404; js_body := ErrorJson "Pipe not found" |}, w)) ∨
  (wellFormed ∧ (cv_pipeId versionData ∈ Pipe.id <$> pipes w) ∧
   ∃ c w', VersionService.createVersion versionData w = (inl (UniqueViolation c), w') ∧
           run = (inr {| js_status := 500;
                         js_body := ErrorJson "Internal server error" |}, w')) ∨
  (wellFormed ∧ (cv_pipeId versionData ∈ Pipe.id <$> pipes w) ∧
   ∃ v w', VersionService.createVersion versionData w = (inr v, w') ∧
           run = (inr {| js_status := 201;
                         js_body := SuccessJson v
                                      (Some "Version created successfully") |}, w')).
Proof.
  intros run wellFormed. subst run wellFormed.
  unfold VersionController.createVersion, try_catch.
  destruct (cv_pipeId versionData =? 0) eqn:Hid; simpl.
  { apply Z.eqb_eq in Hid. left. split; [tauto|done]. }
  apply Z.eqb_neq in Hid.
  destruct (truthy_string (cv_versionNumber versionData)) eqn:Hvn; simpl.
  2: { apply truthy_string_false in Hvn. left. split; [tauto|done]. }
  destruct (truthy_string (cv_assetUrl versionData)) eqn:Hurl; simpl.
  2: { apply truthy_string_false in Hurl. left. split; [tauto|done]. }
  assert (cv_versionNumber versionData ≠ EmptyString) as Hvn'
    by (intros E; apply truthy_string_false in E; congruence).
  assert (cv_assetUrl versionData ≠ EmptyString) as Hurl'
    by (intros E; apply truthy_string_false in E; congruence).
  right. unfold bind.
  destruct (decide (cv_pipeId versionData ∈ Pipe.id <$> pipes w)) as [Hin|Hnot].
  - right. destruct (createVersion_present _ _ Hin) as [(c & w' & Hrun)|(v & w' & Hrun)];
      rewrite Hrun; simpl; [left|right]; (split; [done|]); (split; [done|]); eauto.
  - left. split; [done|]. split; [done|].
    unfold VersionService.createVersion, bind. rewrite findById_eq.
    apply filter_id_nil_iff in Hnot. by rewrite Hnot.
Qed.

(** X15. [POST /versions] with a pipe id in the range of the id column
    answers 400, changing nothing, exactly when the pipe id is zero, the
    version number is empty or the asset URL is empty; for a well-formed
    body it answers 404 with "Pipe not found", changing nothing, exactly
    when no pipe has the id. A 201 carries the row that was appended to
    [versions]: it references an existing pipe, has a non-empty asset URL
    and, when the requested version number fits the column, that number.
    Anything else is a 500. *)
Theorem createVersion_replies versionData w :
  int4 (cv_pipeId versionData) →
  ∃ reply w',
    VersionController.createVersion versionData w = (inr reply, w') ∧
    (js_status reply = 400 ↔
       cv_pipeId versionData = 0 ∨ cv_versionNumber versionData = EmptyString
       ∨ cv_assetUrl versionData = EmptyString) ∧
    (js_status reply = 404 ↔
       js_status reply ≠ 400 ∧ cv_pipeId versionData ∉ Pipe.id <$> pipes w) ∧
    (js_status reply = 404 → js_body reply = ErrorJson "Pipe not found") ∧
    (js_status reply = 400 ∨ js_status reply = 404 → w' = w) ∧
    (js_status reply = 201 →
       ∃ v, js_body reply = SuccessJson v (Some "Version created successfully") ∧
            versions w' = versions w ++ [v] ∧
            (Version.pipeId v ∈ Pipe.id <$> pipes w') ∧
            Version.assetUrl v ≠ EmptyString ∧
            (fits 50 (cv_versionNumber versionData) →
             Version.versionNumber v = cv_versionNumber versionData)) ∧
    (js_status reply = 201 ∨ js_status reply = 400 ∨ js_status reply = 404
     ∨ js_status reply = 500).
Proof.
  intros _.
  destruct (createVersion_controller_cases versionData w)
    as [(Hbad & ->)|[(Hok & Hnot & ->)|[(Hok & Hin & c & w' & _ & ->)
                                        |(Hok & Hin & v & w' & Hrun & ->)]]];
    eexists _, _; (split; [done|]); simpl.
  - split_and!; try done; eauto.
    + split; [intros _|done].
      destruct (decide (cv_pipeId versionData = 0)); [tauto|].
      destruct (decide (cv_versionNumber versionData = EmptyString)); [tauto|].
      destruct (decide (cv_assetUrl versionData = EmptyString)); tauto.
    + split; [done|]. by intros [? _].
  - split_and!; try done; eauto.
    split; [done|]. intros [?|[?|?]]; tauto.
  - split_and!; try done; eauto.
    + split; [done|]. intros [?|[?|?]]; tauto.
    + split; [done|]. by intros [_ ?].
    + by intros [?|?].
  - split_and!; try done; eauto.
    + split; [done|]. intros [?|[?|?]]; tauto.
    + split; [done|]. by intros [_ ?].
    + by intros [?|?].
    + intros _. exists v.
      apply createVersion_inv in Hrun
        as (Hp & _ & [(? & ? & _)|(v' & ? & Hvs & Hpid & Hnum & Hasset & _)]); [done|].
      simplify_eq. rewrite Hp, Hpid, Hasset. split_and!; try done; tauto.
Qed.

Lemma createVersion_replies_witness :
  ∃ reply w',
    VersionController.createVersion
      {| cv_pipeId := 42; cv_versionNumber := "3.0.0";
         cv_assetUrl := "http://localhost:3000/files/acme-3.0.0.tar";
         cv_envSchema := "{}" |} acme_world = (inr reply, w') ∧
    js_status reply = 404 ∧ w' = acme_world.
Proof.
  destruct (createVersion_replies
              {| cv_pipeId := 42; cv_versionNumber := "3.0.0";
                 cv_assetUrl := "http://localhost:3000/files/acme-3.0.0.tar";
                 cv_envSchema := "{}" |} acme_world)
    as (reply & w' & Hrun & H400 & H404 & _ & Hsame & _).
  { unfold int4. simpl. lia. }
  assert (js_status reply = 404) as Hstatus.
  { apply H404. split.
    - intros Hbad. apply H400 in Hbad. simpl in Hbad.
      destruct Hbad as [?|[?|?]]; discriminate.
    - apply (bool_decide_unpack _). vm_compute. exact I. }
  exists reply, w'. split_and!; [done..|]. apply Hsame. by right.
Defined.


(** X16. A download request with a non-empty name reads the world and
    never ends in a 500: once the pipe is found by name, the version
    service's existence check on its id passes. The answer is 200 or 404,
    and a 200 names the archive of a stored version of a pipe with the
    requested name, present in the archive store, whose asset URL is not
    empty and, when a version was asked for, whose number is the one
    asked for. *)
Theorem downloadPipe_replies `{Platform} name version w :
  name ≠ EmptyString →
  ∃ reply,
    PipeController.downloadPipe {| dp_name := name; dp_version := version |} w
    = (inr reply, w) ∧
    (rp_status reply = 200 ∨ rp_status reply = 404) ∧
    (rp_status reply = 200 →
       ∃ p v,
         rp_payload reply
         = SendFile (archiveName (Pipe.name p) (Version.versionNumber v))
                    (env_or env_STORAGE_DIR "./uploads") ∧
         p ∈ pipes w ∧ Pipe.name p = name ∧
         v ∈ versions w ∧ Version.pipeId v = Pipe.id p ∧
         Version.assetUrl v ≠ EmptyString ∧
         (truthy_opt_string version = true →
          version = Some (Version.versionNumber v)) ∧
         is_Some (files w !! FileStorageService.getFilePath
                               (archiveName (Pipe.name p)
                                  (Version.versionNumber v)))).
Proof.
  intros Hname. unfold PipeController.downloadPipe, try_catch. simpl.
  rewrite (truthy_string_ne _ Hname). simpl. unfold bind.
  unfold PipeService.getPipeForDownload. unfold bind at 1.
  rewrite getPipeByName_eq.
  destruct (head (filter _ (pipes w))) as [p|] eqn:Hp;
    [|by eexists; split_and!; eauto].
  pose proof (head_filter_Some _ _ _ Hp) as [Hpin Hpn].
  unfold bind at 1. rewrite (selectVersion_eq _ _ _ Hpin).
  match goal with |- context [if truthy_opt_string version then ?a else ?b] =>
    destruct (if truthy_opt_string version then a else b) as [v|] eqn:Hv
  end; [|by eexists; split_and!; eauto].
  assert (v ∈ versions w ∧ Version.pipeId v = Pipe.id p ∧
          (truthy_opt_string version = true →
           version = Some (Version.versionNumber v))) as (Hvin & Hvid & Hvn).
  { destruct (truthy_opt_string version).
    - apply head_filter_Some in Hv as [Hv Hnum].
      apply elem_of_orderByDesc in Hv. apply list_elem_of_filter in Hv as [? ?]. done.
    - apply head_orderByDesc in Hv as [Hv _].
      apply list_elem_of_filter in Hv as [? ?]. done. }
  destruct (truthy_string (Version.assetUrl v)) eqn:Hurl; simpl;
    [|by eexists; split_and!; eauto].
  unfold bind. rewrite fileExists_inv. unfold FileStorageService.getFilePath, archiveName.
  destruct (files w !! _) eqn:Hfile; simpl; [|by eexists; split_and!; eauto].
  eexists. split_and!; [done|by left|]. intros _. exists p, v. simpl.
  split_and!; try done.
  intros Hempty. apply truthy_string_false in Hempty. congruence.
Qed.

Lemma downloadPipe_replies_witness :
  ∃ reply,
    @PipeController.downloadPipe sample_platform
      {| dp_name := "acme"; dp_version := None |} acme_two_world
    = (inr reply, acme_two_world) ∧
    (rp_status reply = 200 ∨ rp_status reply = 404) ∧
    (rp_status reply = 200 →
       ∃ p v,
         rp_payload reply
         = SendFile (archiveName (Pipe.name p) (Version.versionNumber v))
                    (env_or (@env_STORAGE_DIR sample_platform) "./uploads") ∧
         p ∈ pipes acme_two_world ∧ Pipe.name p = "acme" ∧
         v ∈ versions acme_two_world ∧ Version.pipeId v = Pipe.id p ∧
         Version.assetUrl v ≠ EmptyString ∧
         (truthy_opt_string None = true →
          None = Some (Version.versionNumber v)) ∧
         is_Some (files acme_two_world
                    !! @FileStorageService.getFilePath sample_platform
                         (archiveName (Pipe.name p) (Version.versionNumber v)))).
Proof.
  apply (@downloadPipe_replies sample_platform "acme" None acme_two_world).
  discriminate.
Defined.

(** ** Listings *)

Lemma limitOffset_reads {A} lim off (rows : list A) w :
  ∃ r, Db.limitOffset lim off rows w = (r, w) ∧ (0 ≤ off → fulfilled r).
Proof.
  unfold Db.limitOffset, throw, ret.
  destruct (off <? 0) eqn:Hoff; [|destruct (lim <? 0) eqn:Hlim];
    eexists; (split; [done|]); intros; simpl; try done; lia.
Qed.

Section ListingReads.
Context `{Platform}.

Lemma findMany_reads options w :
  ∃ r, PipeRepository.findMany options w = (r, w) ∧
       (0 ≤ default 10 (pq_limit options) → 1 ≤ default 1 (pq_page options) →
        fulfilled r).
Proof.
  unfold PipeRepository.findMany, PipeRepository.findManyWithVersions.
  destruct (default false (pq_includeVersions options)); unfold bind, gets, ret.
  - destruct (limitOffset_reads (default 10 (pq_limit options) * 10)
                ((default 1 (pq_page options) - 1) * default 10 (pq_limit options) * 10)
                (merge_sort joined_desc
                   (PipeRepository.whereSearchJoined (pq_search options)
                      (leftJoin (pipes w) (versions w)))) w) as (r & -> & Hok).
    destruct r as [e|rows]; eexists; (split; [done|]); intros Hl Hp; [|done].
    apply Hok; nia.
  - destruct (limitOffset_reads (default 10 (pq_limit options))
                ((default 1 (pq_page options) - 1) * default 10 (pq_limit options))
                (Db.orderByDesc Pipe.createdAt
                   (PipeRepository.whereSearch (pq_search options) (pipes w))) w)
      as (r & -> & Hok).
    destruct r as [e|rows]; eexists; (split; [done|]); intros Hl Hp; [|done].
    apply Hok; nia.
Qed.

Lemma count_without_match options w :
  PipeRepository.whereSearch (pq_search options) (pipes w) = [] →
  PipeRepository.count options w
  = (inl (TypeError "Cannot read properties of undefined (reading 'count')"), w).
Proof. intros Hnone. unfold PipeRepository.count, bind, gets. by rewrite Hnone. Qed.

End ListingReads.

Lemma versions_findMany_reads options w :
  ∃ r, VersionRepository.findMany options w = (r, w) ∧
       (0 ≤ default 10 (vq_limit options) → 1 ≤ default 1 (vq_page options) →
        fulfilled r).
Proof.
  unfold VersionRepository.findMany, bind, gets.
  destruct (limitOffset_reads (default 10 (vq_limit options))
              ((default 1 (vq_page options) - 1) * default 10 (vq_limit options))
              (Db.orderByDesc Version.createdAt
                 (VersionRepository.wherePipeId (vq_pipeId options) (versions w))) w)
    as (r & -> & Hok).
  exists r. split; [done|]. intros Hl Hp. apply Hok; nia.
Qed.

Lemma versions_count_without_match options w :
  VersionRepository.wherePipeId (vq_pipeId options) (versions w) = [] →
  VersionRepository.count options w
  = (inl (TypeError "Cannot read properties of undefined (reading 'count')"), w).
Proof. intros Hnone. unfold VersionRepository.count, bind, gets. by rewrite Hnone. Qed.

(** X17. A listing whose filter matches no row is rejected rather than
    answered with an empty page. [getPipes] fails whenever no pipe passes
    the search filter, and [getVersions] fails whenever no version has
    the requested pipe id, each on its own and whatever the other table
    holds; with paging parameters the queries take as they are (and a
    pipe id in the column's range) the failure is the [TypeError] of
    reading [count] off an empty result. *)
Theorem listing_without_match_rejects `{Platform} w :
  (∀ options,
     PipeRepository.whereSearch (pq_search options) (pipes w) = [] →
     ∃ e, fst (PipeService.getPipes options w) = inl e ∧
          (paging_ok (default 1 (pq_page options))
                     (default 10 (pq_limit options)) →
           e = TypeError "Cannot read properties of undefined (reading 'count')")) ∧
  (∀ options,
     VersionRepository.wherePipeId (vq_pipeId options) (versions w) = [] →
     ∃ e, fst (VersionService.getVersions options w) = inl e ∧
          (paging_ok (default 1 (vq_page options))
                     (default 10 (vq_limit options)) →
           (∀ pipeId, vq_pipeId options = Some pipeId → int4 pipeId) →
           e = TypeError "Cannot read properties of undefined (reading 'count')")).
Proof.
  split.
  - intros options Hnone. unfold PipeService.getPipes, bind.
    destruct (findMany_reads options w) as ([e|rows] & -> & Hok).
    + exists e. split; [done|]. intros (Hp & Hl & _). by destruct (Hok Hl Hp).
    + rewrite (count_without_match _ _ Hnone). by eexists.
  - intros options Hnone. unfold VersionService.getVersions, bind.
    destruct (versions_findMany_reads options w) as ([e|rows] & -> & Hok).
    + exists e. split; [done|]. intros (Hp & Hl & _) _. by destruct (Hok Hl Hp).
    + rewrite (versions_count_without_match _ _ Hnone). by eexists.
Qed.

Lemma listing_without_match_rejects_witness :
  fst (@PipeService.getPipes sample_platform
         {| pq_page := Some 1; pq_limit := Some 10; pq_search := Some "zzz";
            pq_includeVersions := None |} acme_two_world)
  = inl (TypeError "Cannot read properties of undefined (reading 'count')") ∧
  fst (VersionService.getVersions
         {| vq_page := Some 1; vq_limit := Some 10; vq_pipeId := Some 42 |}
         acme_two_world)
  = inl (TypeError "Cannot read properties of undefined (reading 'count')").
Proof.
  destruct (@listing_without_match_rejects sample_platform acme_two_world)
    as [Hpipes Hversions].
  split.
  - destruct (Hpipes {| pq_page := Some 1; pq_limit := Some 10;
                        pq_search := Some "zzz"; pq_includeVersions := None |})
      as (e & Hrun & Herr); [vm_compute; reflexivity|].
    rewrite Hrun. f_equal. apply Herr. unfold paging_ok. simpl. lia.
  - destruct (Hversions {| vq_page := Some 1; vq_limit := Some 10;
                           vq_pipeId := Some 42 |})
      as (e & Hrun & Herr); [vm_compute; reflexivity|].
    rewrite Hrun. f_equal. apply Herr.
    + unfold paging_ok. simpl. lia.
    + intros pipeId [= <-]. unfold int4. lia.
Defined.

Lemma listed_page_eq `{Platform} search limit page w :
  0 ≤ limit → 1 ≤ page →
  listed_page search limit page w
  = take (Z.to_nat limit)
      (drop (Z.to_nat ((page - 1) * limit))
         (Db.orderByDesc Pipe.createdAt
            (PipeRepository.whereSearch search (pipes w)))).
Proof.
  intros Hlimit Hpage.
  unfold listed_page, PipeRepository.findMany, Db.limitOffset. unfold_m. simpl.
  assert ((limit <? 0) = false) as -> by lia.
  assert (((page - 1) * limit <? 0) = false) as -> by nia.
  done.
Qed.

Lemma listed_pages_eq `{Platform} search limit w (k : nat) :
  0 ≤ limit →
  mjoin ((λ i, listed_page search limit (Z.of_nat i) w) <$> seq 1 k)
  = take (k * Z.to_nat limit)
      (Db.orderByDesc Pipe.createdAt (PipeRepository.whereSearch search (pipes w))).
Proof.
  intros Hlimit. induction k as [|k IH]; [done|].
  rewrite seq_S, fmap_app, join_app, IH. simpl. rewrite app_nil_r.
  rewrite listed_page_eq by lia.
  replace (Z.to_nat ((Z.of_nat (S k) - 1) * limit)) with (k * Z.to_nat limit)%nat
    by nia.
  rewrite take_take_drop. f_equal. lia.
Qed.

Lemma NoDup_fmap_eq {A B} (f : A → B) (l : list A) x y :
  NoDup (f <$> l) → x ∈ l → y ∈ l → f x = f y → x = y.
Proof.
  induction l as [|a l IH]; intros Hnd Hx Hy Hf; [by apply elem_of_nil in Hx|].
  csimpl in Hnd. apply NoDup_cons in Hnd as [Hfresh Hnd].
  apply elem_of_cons in Hx as [->|Hx]; apply elem_of_cons in Hy as [->|Hy].
  - done.
  - destruct Hfresh. rewrite Hf. apply list_elem_of_fmap. eauto.
  - destruct Hfresh. rewrite <- Hf. apply list_elem_of_fmap. eauto.
  - by apply IH.
Qed.

(** With distinct keys there is one descending order. *)
Lemma orderByDesc_unique {A} (key : A → Z) (rows sorted : list A) :
  NoDup (key <$> rows) →
  sorted ≡ₚ rows →
  StronglySorted (desc_by key) sorted →
  Db.orderByDesc key rows = sorted.
Proof.
  intros Hnd Hperm Hsorted. unfold Db.orderByDesc.
  apply (StronglySorted_unique_strong (desc_by key)).
  - intros x y Hx Hy Hxy Hyx. apply (NoDup_fmap_eq key rows); [done| | |].
    + by rewrite merge_sort_Permutation in Hx.
    + by rewrite Hperm in Hy.
    + unfold desc_by in *. lia.
  - apply StronglySorted_merge_sort; apply _.
  - done.
  - by rewrite merge_sort_Permutation, Hperm.
Qed.

(** X18. The plain pipe listing is paged without loss when the pipes
    that pass the filter were created at distinct times, so that their
    descending order is determined: pages 1 to [k] laid end to end are
    the first [k * limit] of those pipes, newest first. Once [k * limit]
    reaches their number, the pages hold each of them once. *)
Theorem findMany_pages_cover `{Platform} search limit w (k : nat) sorted :
  paging_ok (Z.of_nat k) limit →
  NoDup (Pipe.createdAt <$> PipeRepository.whereSearch search (pipes w)) →
  sorted ≡ₚ PipeRepository.whereSearch search (pipes w) →
  StronglySorted (desc_by Pipe.createdAt) sorted →
  mjoin ((λ i, listed_page search limit (Z.of_nat i) w) <$> seq 1 k)
  = take (k * Z.to_nat limit) sorted ∧
  ((length (PipeRepository.whereSearch search (pipes w)) ≤ k * Z.to_nat limit)%nat →
   mjoin ((λ i, listed_page search limit (Z.of_nat i) w) <$> seq 1 k)
   ≡ₚ PipeRepository.whereSearch search (pipes w)).
Proof.
  intros (_ & Hlimit & _) Hnd Hperm Hsorted.
  rewrite listed_pages_eq by done.
  rewrite (orderByDesc_unique _ _ sorted Hnd Hperm Hsorted).
  split; [done|]. intros Hlen. rewrite take_ge; [done|]. by rewrite Hperm.
Qed.

Lemma findMany_pages_cover_witness :
  mjoin ((λ i, @listed_page sample_platform None 10 (Z.of_nat i) twenty_five_pipes)
         <$> seq 1 3)
  = take (3 * Z.to_nat 10) (numbered_pipe <$> reverse (seqZ 1 25)) ∧
  mjoin ((λ i, @listed_page sample_platform None 10 (Z.of_nat i) twenty_five_pipes)
         <$> seq 1 3)
  ≡ₚ pipes twenty_five_pipes.
Proof.
  destruct (@findMany_pages_cover sample_platform None 10 twenty_five_pipes 3
              (numbered_pipe <$> reverse (seqZ 1 25))) as [Hpages Hall].
  - unfold paging_ok. simpl. lia.
  - apply (bool_decide_unpack _). vm_compute. exact I.
  - apply (bool_decide_unpack _). vm_compute. exact I.
  - apply (bool_decide_unpack _). vm_compute. exact I.
  - split; [exact Hpages|]. apply Hall. vm_compute. lia.
Defined.

